(** * ChopShop: crossfade, chop timing and tempo synchronisation

    A shallow embedding of the arithmetic and the state transitions of
    [source/MainComponent.cpp] and of the BPM handling of
    [source/LibraryComponent.cpp].

    Numbers.  The C++ code computes on [float] and [double].  The embedding
    idealises both as exact numbers: rationals ([Q]) for the tempo, offset and
    chop-timing code, which only adds, multiplies, divides, compares and
    truncates, and real numbers ([R]) for the gain curve and the stick curve,
    which call [cos], [sin], [log10] and [sqrt].  Rounding, infinities and NaN
    are therefore outside the model; statements that divide are made for
    non-zero tempos, where the idealisation and IEEE arithmetic agree up to
    rounding.

    Collaborators.  Widgets and engine objects ([ScrewComponent],
    [ChopComponent], [DelayComponent], [Thumbnail], the transport) are not
    part of these sources.  Each call the code makes on them is recorded, in
    program order, in a call log; the few values the code reads back from
    them (the screw tempo, the crossfader value, whether the transport plays)
    are kept as plain fields written by the matching setter. *)

From Stdlib Require Import ZArith QArith Qabs List String Bool Lia Lqa.
From Stdlib Require Import Reals Lra.
Import ListNotations.

(** ** SDL gamepad identifiers (values of SDL3's [SDL_GamepadButton] and
    [SDL_GamepadAxis] enumerations) *)

Module Sdl.
Definition SDL_GAMEPAD_BUTTON_SOUTH : Z := 0.
Definition SDL_GAMEPAD_BUTTON_DPAD_UP : Z := 11.
Definition SDL_GAMEPAD_BUTTON_DPAD_DOWN : Z := 12.
Definition SDL_GAMEPAD_BUTTON_DPAD_LEFT : Z := 13.
Definition SDL_GAMEPAD_BUTTON_DPAD_RIGHT : Z := 14.

Definition SDL_GAMEPAD_AXIS_LEFTX : Z := 0.
Definition SDL_GAMEPAD_AXIS_LEFTY : Z := 1.
Definition SDL_GAMEPAD_AXIS_RIGHTX : Z := 2.
Definition SDL_GAMEPAD_AXIS_RIGHTY : Z := 3.
Definition SDL_GAMEPAD_AXIS_LEFT_TRIGGER : Z := 4.
Definition SDL_GAMEPAD_AXIS_RIGHT_TRIGGER : Z := 5.
End Sdl.

(** ** The main component: tempo, deck offset and chop timing *)

Module MainComponent.
Import Sdl.
Local Open Scope Q_scope.

(** What [handleFileSelection] asks of a [juce::File]. *)
Record File := mkFile {
  existsAsFile : bool;
  (** [tracktion::AudioFile (edit.engine, file).isValid()] *)
  isValid : bool;
  getFileNameWithoutExtension : string;
  (** [audioFile.getLength()], in seconds *)
  getLength : Q;
  (** the value [libraryComponent->getBPMForFile (file)] returns for this
      file; the helper itself is not part of these sources *)
  getBPMForFile : Q
}.

(** A wave clip as [insertWaveClip] places it: the clip position is
    [{ { start, length }, offset }], all in seconds. *)
Record Clip := mkClip {
  clipName : string;
  clipStart : Q;
  clipLength : Q;
  clipOffset : Q
}.

Inductive PlayState := Playing | Stopped.

Definition PlayState_eqb (a b : PlayState) : bool :=
  match a, b with
  | Playing, Playing | Stopped, Stopped => true
  | _, _ => false
  end.

(** Calls made on collaborators. *)
Inductive Call :=
| RemoveAllClips (track : Z)
| InsertWaveClip (track : Z) (clip : Clip)
| ClipSetBpm (track : Z) (bpm : Q)
| ScrewSetBaseTempo (bpm : Q)
| ScrewSetTempo (bpm : Q)
| TempoSequenceSetBpm (bpm : Q)
| TransportStop
| TransportSetPosition (seconds : Q)
| TogglePlay
| SetPlayButtonState (on : bool)
| SetStopButtonState (on : bool)
| SetTrackName (name : string)
| DelaySetDelayTime (ms : Q)
| DelaySetTempo (bpm : Q)
| LoopAroundClip
| ThumbnailSetFile
| ThumbnailSetSpeedRatio (ratio : Q)
| SetCrossfaderValue (value : Q)
| SetTrackVolumes (position : Q)
| UpdateButtonStates
| ReverbRampMixLevel (up : bool)
| DelayRampMixLevel (up : bool)
| FlangerRampMixLevel (up : bool)
| StartTimer (intervalMs : option Z)
| StopTimer.

Record State := mkState {
  (** members of [MainComponent] *)
  baseTempo : Q;
  trackOffset : Q;
  chopStartTime : Q;
  chopReleaseDelay : Q;
  playState : PlayState;
  (** what the code reads back from its collaborators *)
  screwTempo : Q;          (* screwComponent->getTempo() *)
  crossfaderValue : Q;     (* chopComponent->getCrossfaderValue() *)
  transportPlaying : bool; (* edit.getTransport().isPlaying() *)
  transportPosition : Q;
  track1 : list Clip;
  track2 : list Clip;
  (** calls made so far, oldest first *)
  calls : list Call
}.

Definition with_baseTempo (v : Q) (s : State) : State :=
  mkState v (trackOffset s) (chopStartTime s) (chopReleaseDelay s)
    (playState s) (screwTempo s) (crossfaderValue s) (transportPlaying s)
    (transportPosition s) (track1 s) (track2 s) (calls s).
Definition with_trackOffset (v : Q) (s : State) : State :=
  mkState (baseTempo s) v (chopStartTime s) (chopReleaseDelay s)
    (playState s) (screwTempo s) (crossfaderValue s) (transportPlaying s)
    (transportPosition s) (track1 s) (track2 s) (calls s).
Definition with_chopStartTime (v : Q) (s : State) : State :=
  mkState (baseTempo s) (trackOffset s) v (chopReleaseDelay s)
    (playState s) (screwTempo s) (crossfaderValue s) (transportPlaying s)
    (transportPosition s) (track1 s) (track2 s) (calls s).
Definition with_chopReleaseDelay (v : Q) (s : State) : State :=
  mkState (baseTempo s) (trackOffset s) (chopStartTime s) v
    (playState s) (screwTempo s) (crossfaderValue s) (transportPlaying s)
    (transportPosition s) (track1 s) (track2 s) (calls s).
Definition with_playState (v : PlayState) (s : State) : State :=
  mkState (baseTempo s) (trackOffset s) (chopStartTime s)
    (chopReleaseDelay s) v (screwTempo s) (crossfaderValue s)
    (transportPlaying s) (transportPosition s) (track1 s) (track2 s)
    (calls s).
Definition with_screwTempo (v : Q) (s : State) : State :=
  mkState (baseTempo s) (trackOffset s) (chopStartTime s)
    (chopReleaseDelay s) (playState s) v (crossfaderValue s)
    (transportPlaying s) (transportPosition s) (track1 s) (track2 s)
    (calls s).
Definition with_crossfaderValue (v : Q) (s : State) : State :=
  mkState (baseTempo s) (trackOffset s) (chopStartTime s)
    (chopReleaseDelay s) (playState s) (screwTempo s) v
    (transportPlaying s) (transportPosition s) (track1 s) (track2 s)
    (calls s).
Definition with_transportPlaying (v : bool) (s : State) : State :=
  mkState (baseTempo s) (trackOffset s) (chopStartTime s)
    (chopReleaseDelay s) (playState s) (screwTempo s) (crossfaderValue s)
    v (transportPosition s) (track1 s) (track2 s) (calls s).
Definition with_transportPosition (v : Q) (s : State) : State :=
  mkState (baseTempo s) (trackOffset s) (chopStartTime s)
    (chopReleaseDelay s) (playState s) (screwTempo s) (crossfaderValue s)
    (transportPlaying s) v (track1 s) (track2 s) (calls s).
Definition with_track1 (v : list Clip) (s : State) : State :=
  mkState (baseTempo s) (trackOffset s) (chopStartTime s)
    (chopReleaseDelay s) (playState s) (screwTempo s) (crossfaderValue s)
    (transportPlaying s) (transportPosition s) v (track2 s) (calls s).
Definition with_track2 (v : list Clip) (s : State) : State :=
  mkState (baseTempo s) (trackOffset s) (chopStartTime s)
    (chopReleaseDelay s) (playState s) (screwTempo s) (crossfaderValue s)
    (transportPlaying s) (transportPosition s) (track1 s) v (calls s).
Definition with_calls (v : list Call) (s : State) : State :=
  mkState (baseTempo s) (trackOffset s) (chopStartTime s)
    (chopReleaseDelay s) (playState s) (screwTempo s) (crossfaderValue s)
    (transportPlaying s) (transportPosition s) (track1 s) (track2 s) v.

(** *** A state monad for the member functions *)

Definition M (A : Type) : Type := State -> A * State.

Definition ret {A} (a : A) : M A := fun s => (a, s).
Definition bind {A B} (m : M A) (k : A -> M B) : M B :=
  fun s => let (a, s') := m s in k a s'.
Definition gets {A} (f : State -> A) : M A := fun s => (f s, s).
Definition modify (f : State -> State) : M unit := fun s => (tt, f s).
Definition exec {A} (m : M A) (s : State) : State := snd (m s).

Notation "x <- m ;; k" := (bind m (fun x => k))
  (at level 61, m at next level, right associativity).
Notation "m ;; k" := (bind m (fun _ => k))
  (at level 61, right associativity).

Definition call (c : Call) : M unit :=
  modify (fun s => with_calls (calls s ++ [c]) s).

(** *** Collaborator calls *)

(** [EngineHelpers::removeAllClips] on track 0 or 1 *)
Definition removeAllClips (track : Z) : M unit :=
  call (RemoveAllClips track) ;;
  modify (if track =? 0 then with_track1 [] else with_track2 [])%Z.

(** [track->insertWaveClip (name, file, { { start, length }, offset }, true)] *)
Definition insertWaveClip (track : Z) (name : string) (start length offset : Q)
  : M Clip :=
  let clip := mkClip name start length offset in
  call (InsertWaveClip track clip) ;;
  modify (fun s => if (track =? 0)%Z then with_track1 (track1 s ++ [clip]) s
                   else with_track2 (track2 s ++ [clip]) s) ;;
  ret clip.

(** [ScrewComponent] is taken to keep the tempo [setTempo] gives it and to
    return it from [getTempo]; [setBaseTempo] is taken to leave it alone. *)
Definition screw_getTempo : M Q := gets screwTempo.
Definition screw_setBaseTempo (bpm : Q) : M unit := call (ScrewSetBaseTempo bpm).
(** [screwComponent->setTempo (bpm, juce::dontSendNotification)] *)
Definition screw_setTempo (bpm : Q) : M unit :=
  call (ScrewSetTempo bpm) ;; modify (with_screwTempo bpm).

(** [ChopComponent] is taken to keep the value [setCrossfaderValue] gives
    it and to return it from [getCrossfaderValue]. *)
Definition getCrossfaderValue : M Q := gets crossfaderValue.
Definition setCrossfaderValue (v : Q) : M unit :=
  call (SetCrossfaderValue v) ;; modify (with_crossfaderValue v).

(** [edit.tempoSequence.insertTempo (0 s)] followed by [setBpm] *)
Definition insertTempo_setBpm (bpm : Q) : M unit := call (TempoSequenceSetBpm bpm).

(** [edit.getTransport().stop (false, false)] *)
Definition transport_stop : M unit :=
  call TransportStop ;; modify (with_transportPlaying false).
Definition transport_setPosition (seconds : Q) : M unit :=
  call (TransportSetPosition seconds) ;; modify (with_transportPosition seconds).
(** [EngineHelpers::togglePlay (edit)]: stops a playing transport, starts a
    stopped one. *)
Definition togglePlay : M unit :=
  call TogglePlay ;;
  modify (fun s => with_transportPlaying (negb (transportPlaying s)) s).

(** The range of a 32-bit [int]. *)
Definition INT_MIN : Z := -2147483648.
Definition INT_MAX : Z := 2147483647.

(** [static_cast<int>] of a [double]: truncation toward zero when the
    truncated value fits an [int]; otherwise C++ leaves the conversion
    undefined, and there is no value. *)
Definition static_cast_int (q : Q) : option Z :=
  let z := Z.quot (Qnum q) (Z.pos (Qden q)) in
  if (INT_MIN <=? z)%Z && (z <=? INT_MAX)%Z then Some z else None.

(** *** Member functions *)

(** [MainComponent::updateCrossfader]: reads the crossfader position and
    sets both track volumes from it (the gains are those of
    [Gain.updateCrossfader] below). *)
Definition updateCrossfader : M unit :=
  position <- getCrossfaderValue ;;
  call (SetTrackVolumes position).

(** [MainComponent::play] *)
Definition play : M unit :=
  togglePlay ;;
  isPlaying <- gets transportPlaying ;;
  call (SetPlayButtonState isPlaying) ;;
  call (SetStopButtonState (negb isPlaying)) ;;
  modify (with_playState (if isPlaying then Playing else Stopped)).

(** [MainComponent::updateTempo]; [thumbnail] and [delayComponent] are taken
    to be set. *)
Definition updateTempo : M unit :=
  newBpm <- screw_getTempo ;;
  insertTempo_setBpm newBpm ;;
  base <- gets baseTempo ;;
  let ratio := base / newBpm in
  call (ThumbnailSetSpeedRatio ratio) ;;
  call (DelaySetTempo newBpm).

(** [screwComponent->onTempoChanged], installed by the constructor *)
Definition onTempoChanged (tempo : Q) : M unit :=
  updateTempo ;;
  call (DelaySetTempo tempo).

(** [MainComponent::handleFileSelection].  Both tracks and both clips are
    taken to exist (the two null checks that follow [getOrInsertAudioTrackAt]
    and [insertWaveClip] never fire), every component pointer is taken to be
    set, and the per-clip settings (sync type, auto pitch, stretch mode,
    proxy, auto tempo, gain) and the debug output are left out. *)
Definition handleFileSelection (file : File) : M unit :=
  if negb (existsAsFile file) then ret tt else
  if negb (isValid file) then ret tt else
  removeAllClips 0 ;;
  removeAllClips 1 ;;
  let detectedBPM := getBPMForFile file in
  modify (with_baseTempo detectedBPM) ;;
  _ <- insertWaveClip 0 (getFileNameWithoutExtension file) 0 (getLength file) 0 ;;
  base <- gets baseTempo ;;
  modify (with_trackOffset ((60 / base) * 1000)) ;;
  offset <- gets trackOffset ;;
  _ <- insertWaveClip 1 (getFileNameWithoutExtension file) 0 (getLength file)
         (offset / 1000) ;;
  call (ClipSetBpm 0 base) ;;
  call (ClipSetBpm 1 base) ;;
  tempo <- screw_getTempo ;;
  let currentRatio := tempo / base in
  screw_setBaseTempo base ;;
  let newTempo := base * currentRatio in
  screw_setTempo newTempo ;;
  insertTempo_setBpm base ;;
  transport_stop ;;
  transport_setPosition 0 ;;
  modify (with_playState Stopped) ;;
  call (SetPlayButtonState false) ;;
  call (SetStopButtonState true) ;;
  call (SetTrackName (getFileNameWithoutExtension file)) ;;
  (let quarterNoteMs := (60 / base) * 1000 in
   call (DelaySetDelayTime quarterNoteMs)) ;;
  tempo' <- screw_getTempo ;;
  let ratio := tempo' / base in
  call LoopAroundClip ;;
  transport_stop ;;
  call ThumbnailSetFile ;;
  call (ThumbnailSetSpeedRatio ratio) ;;
  setCrossfaderValue 0 ;;
  updateCrossfader ;;
  call UpdateButtonStates ;;
  updateTempo ;;
  ps <- gets playState ;;
  if negb (PlayState_eqb ps Playing)
  then transport_setPosition 0 ;; play
  else ret tt.

(** [chopComponent->onChopButtonPressed]; [now] is what
    [juce::Time::getMillisecondCounterHiRes()] returns. *)
Definition onChopButtonPressed (now : Q) : M unit :=
  modify (with_chopStartTime now) ;;
  currentPosition <- getCrossfaderValue ;;
  setCrossfaderValue (if Qle_bool currentPosition (1#2) then 1 else 0).

Section ChopDuration.
(** [chopComponent->getChopDurationInMs]; not part of these sources. *)
Variable getChopDurationInMs : Q -> Q.

(** [chopComponent->onChopButtonReleased] *)
Definition onChopButtonReleased (now : Q) : M unit :=
  start <- gets chopStartTime ;;
  let elapsedTime := now - start in
  tempo <- screw_getTempo ;;
  let minimumTime := getChopDurationInMs tempo in
  if Qle_bool minimumTime elapsedTime
  then
    currentPosition <- getCrossfaderValue ;;
    setCrossfaderValue (if Qle_bool currentPosition (1#2) then 1 else 0)
  else
    modify (with_chopReleaseDelay (minimumTime - elapsedTime)) ;;
    delay <- gets chopReleaseDelay ;;
    call (StartTimer (static_cast_int delay)).
End ChopDuration.

(** [MainComponent::gamepadButtonPressed] *)
Definition gamepadButtonPressed (now : Q) (buttonId : Z) : M unit :=
  if (buttonId =? SDL_GAMEPAD_BUTTON_SOUTH)%Z then
    modify (with_chopStartTime now) ;;
    currentPosition <- getCrossfaderValue ;;
    setCrossfaderValue (if Qle_bool currentPosition (1#2) then 1 else 0)
  else if (buttonId =? SDL_GAMEPAD_BUTTON_DPAD_UP)%Z then
    call (ReverbRampMixLevel true)
  else if (buttonId =? SDL_GAMEPAD_BUTTON_DPAD_RIGHT)%Z then
    call (DelayRampMixLevel true)
  else if (buttonId =? SDL_GAMEPAD_BUTTON_DPAD_DOWN)%Z then
    call (FlangerRampMixLevel true)
  else ret tt.

(** [MainComponent::gamepadButtonReleased] *)
Definition gamepadButtonReleased (now : Q) (buttonId : Z) : M unit :=
  if (buttonId =? SDL_GAMEPAD_BUTTON_SOUTH)%Z then
    start <- gets chopStartTime ;;
    let elapsedTime := now - start in
    minimumTime <- gets trackOffset ;;
    if Qle_bool minimumTime elapsedTime
    then
      currentPosition <- getCrossfaderValue ;;
      setCrossfaderValue (if Qle_bool currentPosition (1#2) then 1 else 0)
    else
      modify (with_chopReleaseDelay (minimumTime - elapsedTime)) ;;
      delay <- gets chopReleaseDelay ;;
      call (StartTimer (static_cast_int delay))
  else if (buttonId =? SDL_GAMEPAD_BUTTON_DPAD_UP)%Z then
    call (ReverbRampMixLevel false)
  else if (buttonId =? SDL_GAMEPAD_BUTTON_DPAD_RIGHT)%Z then
    call (DelayRampMixLevel false)
  else if (buttonId =? SDL_GAMEPAD_BUTTON_DPAD_DOWN)%Z then
    call (FlangerRampMixLevel false)
  else ret tt.

(** The body the two release handlers share, given the minimum hold time
    they compare with: the state a release leaves. *)
Definition released (minimumTime now : Q) (s : State) : State :=
  let elapsedTime := now - chopStartTime s in
  if Qle_bool minimumTime elapsedTime
  then
    let target := if Qle_bool (crossfaderValue s) (1#2) then 1 else 0 in
    mkState (baseTempo s) (trackOffset s) (chopStartTime s)
      (chopReleaseDelay s) (playState s) (screwTempo s) target
      (transportPlaying s) (transportPosition s) (track1 s) (track2 s)
      (calls s ++ [SetCrossfaderValue target])
  else
    mkState (baseTempo s) (trackOffset s) (chopStartTime s)
      (minimumTime - elapsedTime) (playState s) (screwTempo s)
      (crossfaderValue s) (transportPlaying s) (transportPosition s)
      (track1 s) (track2 s)
      (calls s ++ [StartTimer (static_cast_int (minimumTime - elapsedTime))]).

(** *** Reading the call log *)

(** The calls a run added to the log. *)
Definition newCalls (before after : State) : list Call :=
  skipn (List.length (calls before)) (calls after).

(** Values handed to [thumbnail->setSpeedRatio], in order. *)
Fixpoint speedRatios (l : list Call) : list Q :=
  match l with
  | [] => []
  | ThumbnailSetSpeedRatio r :: l' => r :: speedRatios l'
  | _ :: l' => speedRatios l'
  end.

(** Values handed to [delayComponent->setDelayTime], in order. *)
Fixpoint delayTimesSet (l : list Call) : list Q :=
  match l with
  | [] => []
  | DelaySetDelayTime ms :: l' => ms :: delayTimesSet l'
  | _ :: l' => delayTimesSet l'
  end.

(** Values handed to [delayComponent->setTempo], in order. *)
Fixpoint delayTemposSet (l : list Call) : list Q :=
  match l with
  | [] => []
  | DelaySetTempo bpm :: l' => bpm :: delayTemposSet l'
  | _ :: l' => delayTemposSet l'
  end.

(** Number of [setCrossfaderValue] calls. *)
Fixpoint crossfaderSets (l : list Call) : nat :=
  match l with
  | [] => O
  | SetCrossfaderValue _ :: l' => S (crossfaderSets l')
  | _ :: l' => crossfaderSets l'
  end.

(** Intervals handed to [startTimer], in order; [None] for an interval the
    conversion to [int] does not define. *)
Fixpoint timersStarted (l : list Call) : list (option Z) :=
  match l with
  | [] => []
  | StartTimer ms :: l' => ms :: timersStarted l'
  | _ :: l' => timersStarted l'
  end.

(** Whether a timer started by [startTimer] is still to fire: the last of
    the [startTimer] and [stopTimer] calls decides.  The 30 Hz tick the
    constructor starts is not part of this reading of the log. *)
Definition timer_step (running : bool) (c : Call) : bool :=
  match c with
  | StartTimer _ => true
  | StopTimer => false
  | _ => running
  end.

Definition timerRunning (l : list Call) : bool := fold_left timer_step l false.

(** Modelled from the spec: [MainComponent::timerCallback] is not part of
    these sources.  The spec says the early release "schedules a one-shot
    deferred action at minimumHoldMs - elapsed; on firing, performs the toggle
    and transitions to Idle": the callback stops the timer and toggles the
    crossfader as the late release does. *)
Definition timerCallback : M unit :=
  call StopTimer ;;
  currentPosition <- getCrossfaderValue ;;
  setCrossfaderValue (if Qle_bool currentPosition (1#2) then 1 else 0).

(** The timer's firing: the callback runs if a timer is still to fire. *)
Definition timerFires : M unit :=
  fun s => if timerRunning (calls s) then timerCallback s else (tt, s).

(** Modelled from the spec: [DelayComponent::setTempo] is not part of these
    sources.  The spec says a tempo change pushes "a derived delay time =
    (60/liveTempo)*1000 ms (quarter-note duration at current tempo) to a
    dependent delay effect"; [setDelayTime] stores the time it is given. *)
Definition delay_step (delayTime : Q) (c : Call) : Q :=
  match c with
  | DelaySetDelayTime ms => ms
  | DelaySetTempo bpm => (60 / bpm) * 1000
  | _ => delayTime
  end.

Definition delayTimeAfter (l : list Call) (delayTime : Q) : Q :=
  fold_left delay_step l delayTime.

(** A state to run examples from: base tempo and live tempo given, deck A
    audible, nothing loaded, transport stopped. *)
Definition fresh (base live : Q) : State :=
  mkState base ((60 / base) * 1000) 0 0 Stopped live 0 false 0 [] [] [].

Definition song (bpm : Q) : File := mkFile true true "song" 180 bpm.

(** The calls a load makes, for a file with name [name], length [len] and
    library BPM [bpm], when the live tempo was [live]. *)
Definition loadCalls (name : string) (len bpm live : Q) : list Call :=
  [ RemoveAllClips 0; RemoveAllClips 1;
    InsertWaveClip 0 (mkClip name 0 len 0);
    InsertWaveClip 1 (mkClip name 0 len ((60 / bpm) * 1000 / 1000));
    ClipSetBpm 0 bpm; ClipSetBpm 1 bpm;
    ScrewSetBaseTempo bpm; ScrewSetTempo (bpm * (live / bpm));
    TempoSequenceSetBpm bpm;
    TransportStop; TransportSetPosition 0;
    SetPlayButtonState false; SetStopButtonState true; SetTrackName name;
    DelaySetDelayTime ((60 / bpm) * 1000);
    LoopAroundClip; TransportStop;
    ThumbnailSetFile; ThumbnailSetSpeedRatio (bpm * (live / bpm) / bpm);
    SetCrossfaderValue 0; SetTrackVolumes 0; UpdateButtonStates;
    TempoSequenceSetBpm (bpm * (live / bpm));
    ThumbnailSetSpeedRatio (bpm / (bpm * (live / bpm)));
    DelaySetTempo (bpm * (live / bpm));
    TransportSetPosition 0; TogglePlay;
    SetPlayButtonState true; SetStopButtonState false ].
End MainComponent.

(** ** The library: where BPM values come from *)

Module Library.
Local Open Scope Q_scope.

(** A project item with its named property "bpm", as
    [getNamedProperty ("bpm").getFloatValue()] reads it. *)
Record ProjectItem := mkItem {
  itemName : string;
  bpm : Q
}.

(** The library project as the BPM editor touches it. *)
Record Editor := mkEditor {
  itemRef : ProjectItem;
  projectSaves : nat;
  dialogOpen : bool
}.

(** [LibraryComponent::addToLibrary]: the BPM stored with a file is the
    detector's estimate [tempBPM] when that is positive, 120 otherwise. *)
Definition detectedBPM (tempBPM : Q) : Q :=
  let detectedBPM := 120 in
  if negb (Qle_bool tempBPM 0) then tempBPM else detectedBPM.

(** [LibraryComponent::showBpmEditorWindow]: the value the editor opens
    with. *)
Definition currentBpm (item : ProjectItem) : Q :=
  if Qle_bool (bpm item) 0 then 120 else bpm item.

(** [okButton->onClick] of the BPM editor; [newBpm] is
    [editor->getText().getFloatValue()]. *)
Definition okButton_onClick (newBpm : Q) (e : Editor) : Editor :=
  if Qle_bool newBpm 0 then e
  else mkEditor (mkItem (itemName (itemRef e)) newBpm)
                (S (projectSaves e)) false.
End Library.

(** ** The gain curve of the crossfader *)

Module Gain.
Local Open Scope R_scope.

(** [juce::MathConstants<float>::halfPi] *)
Definition halfPi : R := PI / 2.

Definition log10 (x : R) : R := ln x / ln 10.

(** [juce::Decibels::gainToDecibels] with its default floor of -100 dB. *)
Definition gainToDecibels (gain : R) : R :=
  if Rlt_dec 0 gain then Rmax (-100) (log10 gain * 20) else -100.

Definition minDB : R := -60.

Definition gainTrack1 (position : R) : R := cos (position * halfPi).
Definition gainTrack2 (position : R) : R := sin (position * halfPi).

(** [MainComponent::updateCrossfader]: the decibel values handed to
    [setTrackVolume (0, _)] and [setTrackVolume (1, _)] at a crossfader
    position. *)
Definition updateCrossfader (position : R) : R * R :=
  let gainDB1 := if Rle_dec (gainTrack1 position) 0 then minDB
                 else gainToDecibels (gainTrack1 position) in
  let gainDB2 := if Rle_dec (gainTrack2 position) 0 then minDB
                 else gainToDecibels (gainTrack2 position) in
  (gainDB1, gainDB2).
End Gain.

(** ** The analog sticks *)

Module Axis.
Import Sdl.
Local Open Scope R_scope.

Record Flanger := mkFlanger { speed : R; depth : R; width : R }.
Record Phaser := mkPhaser { rate : R; phaserDepth : R; feedback : R }.
Record VinylBrake := mkBrake { brakeValue : R; springAnimations : nat }.

(** The four function-local statics of [gamepadAxisMoved] and the three
    effect components it drives; a component pointer may be null. *)
Record State := mkState {
  rightX : R;
  rightY : R;
  leftX : R;
  leftY : R;
  flangerComponent : option Flanger;
  phaserComponent : option Phaser;
  vinylBrakeComponent : option VinylBrake
}.

(** [juce::jlimit (lowerLimit, upperLimit, valueToConstrain)] *)
Definition jlimit (lowerLimit upperLimit value : R) : R :=
  if Rlt_dec value lowerLimit then lowerLimit
  else if Rlt_dec upperLimit value then upperLimit
  else value.

(** The width computed in the two left-stick cases. *)
Definition curvedWidth (leftX leftY : R) : R :=
  let distance := sqrt (leftX * leftX + leftY * leftY) in
  let normalizedDistance := distance / sqrt 2 in
  normalizedDistance * normalizedDistance.

(** The distance computed in the two right-stick cases. *)
Definition distance (rightX rightY : R) : R :=
  sqrt (rightX * rightX + rightY * rightY).

(** [MainComponent::gamepadAxisMoved].  [startSpringAnimation] is counted,
    [setBrakeValue] stores the value it is given; the left trigger's case is
    empty in the source. *)
Definition gamepadAxisMoved (axisId : Z) (value : R) (s : State) : State :=
  if (axisId =? SDL_GAMEPAD_AXIS_RIGHT_TRIGGER)%Z then
    match vinylBrakeComponent s with
    | Some b =>
        let b' :=
          if Rlt_dec value (1 / 100) then
            if Rlt_dec 0 (brakeValue b)
            then mkBrake (brakeValue b) (S (springAnimations b))
            else mkBrake value (springAnimations b)
          else mkBrake value (springAnimations b) in
        mkState (rightX s) (rightY s) (leftX s) (leftY s)
                (flangerComponent s) (phaserComponent s) (Some b')
    | None => s
    end
  else if (axisId =? SDL_GAMEPAD_AXIS_LEFT_TRIGGER)%Z then s
  else if (axisId =? SDL_GAMEPAD_AXIS_LEFTX)%Z then
    let leftX' := value in
    mkState (rightX s) (rightY s) leftX' (leftY s)
      (match flangerComponent s with
       | Some f => Some (mkFlanger (value * 10) (depth f)
                           (jlimit 0 (99 / 100) (curvedWidth leftX' (leftY s))))
       | None => None
       end)
      (phaserComponent s) (vinylBrakeComponent s)
  else if (axisId =? SDL_GAMEPAD_AXIS_LEFTY)%Z then
    let leftY' := value in
    mkState (rightX s) (rightY s) (leftX s) leftY'
      (match flangerComponent s with
       | Some f => Some (mkFlanger (speed f) (value * 10)
                           (jlimit 0 (99 / 100) (curvedWidth (leftX s) leftY')))
       | None => None
       end)
      (phaserComponent s) (vinylBrakeComponent s)
  else if (axisId =? SDL_GAMEPAD_AXIS_RIGHTX)%Z then
    let rightX' := value in
    mkState rightX' (rightY s) (leftX s) (leftY s)
      (flangerComponent s)
      (match phaserComponent s with
       | Some p => Some (mkPhaser (value * 10) (phaserDepth p)
                           (jlimit 0 (70 / 100) (distance rightX' (rightY s))))
       | None => None
       end)
      (vinylBrakeComponent s)
  else if (axisId =? SDL_GAMEPAD_AXIS_RIGHTY)%Z then
    let rightY' := value in
    mkState (rightX s) rightY' (leftX s) (leftY s)
      (flangerComponent s)
      (match phaserComponent s with
       | Some p => Some (mkPhaser (rate p) (value * 10)
                           (jlimit 0 (70 / 100) (distance (rightX s) rightY')))
       | None => None
       end)
      (vinylBrakeComponent s)
  else s.

(** A run of axis events, oldest first. *)
Definition run (events : list (Z * R)) (s : State) : State :=
  fold_left (fun s e => gamepadAxisMoved (fst e) (snd e) s) events s.

(** The value of the last event on [axis], or [default] if there is none. *)
Definition lastSeen (axis : Z) (events : list (Z * R)) (default : R) : R :=
  fold_left (fun v e => if (fst e =? axis)%Z then snd e else v) events default.

(** Whether an event on [axis] occurs. *)
Definition seen (axis : Z) (events : list (Z * R)) : bool :=
  existsb (fun e => (fst e =? axis)%Z) events.
(** What a run of events leaves in the left-stick statics and the flanger. *)
Definition leftInv (events : list (Z * R)) (s s' : State) : Prop :=
  let x := lastSeen SDL_GAMEPAD_AXIS_LEFTX events (leftX s) in
  let y := lastSeen SDL_GAMEPAD_AXIS_LEFTY events (leftY s) in
  leftX s' = x /\ leftY s' = y /\
  exists f, flangerComponent s' = Some f /\
    (seen SDL_GAMEPAD_AXIS_LEFTX events = true -> speed f = x * 10) /\
    (seen SDL_GAMEPAD_AXIS_LEFTY events = true -> depth f = y * 10) /\
    (seen SDL_GAMEPAD_AXIS_LEFTX events || seen SDL_GAMEPAD_AXIS_LEFTY events = true ->
     width f = jlimit 0 (99 / 100) (curvedWidth x y)).

(** What a run of events leaves in the right-stick statics and the phaser. *)
Definition rightInv (events : list (Z * R)) (s s' : State) : Prop :=
  let x := lastSeen SDL_GAMEPAD_AXIS_RIGHTX events (rightX s) in
  let y := lastSeen SDL_GAMEPAD_AXIS_RIGHTY events (rightY s) in
  rightX s' = x /\ rightY s' = y /\
  exists p, phaserComponent s' = Some p /\
    (seen SDL_GAMEPAD_AXIS_RIGHTX events = true -> rate p = x * 10) /\
    (seen SDL_GAMEPAD_AXIS_RIGHTY events = true -> phaserDepth p = y * 10) /\
    (seen SDL_GAMEPAD_AXIS_RIGHTX events || seen SDL_GAMEPAD_AXIS_RIGHTY events = true ->
     feedback p = jlimit 0 (70 / 100) (distance x y)).

(** A pad at rest: statics at 0, effects present with their parameters at
    0. *)
Definition atRest : State :=
  mkState 0 0 0 0 (Some (mkFlanger 0 0 0)) (Some (mkPhaser 0 0 0))
          (Some (mkBrake 0 0)).
End Axis.

(** ** Playback: stop, the play state and the tempo percentage *)

Module Playback.
Import MainComponent.
Local Open Scope Q_scope.

(** [EngineHelpers::togglePlay (edit, EngineHelpers::ReturnToStart::yes)]:
    stops a playing transport, starts a stopped one from the start. *)
Definition togglePlay_returnToStart : M unit :=
  call TogglePlay ;;
  modify (fun s => if transportPlaying s
                   then with_transportPlaying false s
                   else with_transportPosition 0 (with_transportPlaying true s)).

(** [MainComponent::stop]; the flags of [stop (true, false)] are not kept in
    the call log. *)
Definition stop : M unit :=
  togglePlay_returnToStart ;;
  transport_stop ;;
  transport_setPosition 0 ;;
  modify (with_playState Stopped) ;;
  call (SetPlayButtonState false) ;;
  call (SetStopButtonState true) ;;
  call UpdateButtonStates.

(** [MainComponent::isTempoPercentageActive] *)
Definition isTempoPercentageActive (percentage : Q) (s : State) : bool :=
  let currentPercentage := screwTempo s / baseTempo s in
  negb (Qle_bool (1 # 1000) (Qabs (currentPercentage - percentage))).

(** [vinylBrakeComponent->getCurrentTempoAdjustment], installed by
    [createVinylBrakeComponent] *)
Definition getCurrentTempoAdjustment (s : State) : Q :=
  let ratio := screwTempo s / baseTempo s in
  ratio - 1.

(** The play state says what the transport does. *)
Definition inStep (s : State) : Prop :=
  playState s = if transportPlaying s then Playing else Stopped.

(** Two states that differ in the call log at most. *)
Definition sameButCalls (s t : State) : Prop :=
  with_calls [] s = with_calls [] t.
(** What the chop handlers, the gamepad buttons and the tempo update may
    change: the press time, the pending delay, the crossfader and the log. *)
Definition chopOnly (s s' : State) : Prop :=
  baseTempo s' = baseTempo s /\ trackOffset s' = trackOffset s /\
  playState s' = playState s /\ screwTempo s' = screwTempo s /\
  transportPlaying s' = transportPlaying s /\
  transportPosition s' = transportPosition s /\
  track1 s' = track1 s /\ track2 s' = track2 s.
End Playback.

(** ** The library project *)

Module Project.
Local Open Scope Q_scope.

(** What [addToLibrary] asks of a [juce::File] and of the audio format
    manager. *)
Record AudioFile := mkAudioFile {
  getFullPathName : string;
  getFileNameWithoutExtension : string;
  existsAsFile : bool;
  (** [formatManager.findFormatForFileExtension] finds a format *)
  formatKnown : bool;
  (** [formatManager.createReaderFor] returns a reader *)
  readerCreated : bool;
  (** [bpmDetector.estimateTempo()] once the file has been processed *)
  estimateTempo : Q
}.

(** A project item: the file it refers to and its name and BPM. *)
Record Entry := mkEntry {
  getSourceFile : string;
  item : Library.ProjectItem
}.

(** The tracktion project behind the library, as the component uses it: a
    list of items, first row first. *)
Record Project := mkProject {
  isValid : bool;
  isReadOnly : bool;
  projectItems : list Entry;
  saves : nat
}.

(** [libraryProject] may be null; [tableUpdates] counts
    [playlistTable->updateContent()]. *)
Record LibraryComponent := mkLibrary {
  libraryProject : option Project;
  tableUpdates : nat
}.

(** [libraryProject->getProjectItemForFile]: the first item that refers to
    the file. *)
Definition getProjectItemForFile (file : AudioFile) (p : Project) : option Entry :=
  find (fun e => String.eqb (getSourceFile e) (getFullPathName file)) (projectItems p).

(** [existingItem->setNamedProperty ("bpm", _)] on the first item that refers
    to the path. *)
Fixpoint setBpmForFile (path : string) (newBpm : Q) (l : list Entry) : list Entry :=
  match l with
  | [] => []
  | e :: l' =>
      if String.eqb (getSourceFile e) path
      then mkEntry (getSourceFile e)
             (Library.mkItem (Library.itemName (item e)) newBpm) :: l'
      else e :: setBpmForFile path newBpm l'
  end.

(** [LibraryComponent::getNumRows] *)
Definition getNumRows (l : LibraryComponent) : Z :=
  match libraryProject l with
  | Some p => Z.of_nat (List.length (projectItems p))
  | None => 0
  end.

(** [LibraryComponent::addToLibrary].  [createNewItem] is taken to succeed on
    a valid project that is not read-only, and to put the item at the top of
    the list as its last argument asks. *)
Definition addToLibrary (file : AudioFile) (l : LibraryComponent) : LibraryComponent :=
  match libraryProject l with
  | None => l
  | Some p =>
      if negb (existsAsFile file) then l else
      if negb (isValid p) then l else
      if isReadOnly p then l else
      if negb (formatKnown file) then l else
      if negb (readerCreated file) then l else
      let detectedBPM := Library.detectedBPM (estimateTempo file) in
      match getProjectItemForFile file p with
      | Some existingItem =>
          let existingBPM := Library.bpm (item existingItem) in
          if negb (Qle_bool (Qabs (existingBPM - detectedBPM)) (1 # 10))
          then mkLibrary
                 (Some (mkProject (isValid p) (isReadOnly p)
                          (setBpmForFile (getFullPathName file) detectedBPM
                             (projectItems p))
                          (S (saves p))))
                 (S (tableUpdates l))
          else l
      | None =>
          let projectItem :=
            mkEntry (getFullPathName file)
              (Library.mkItem (getFileNameWithoutExtension file) detectedBPM) in
          mkLibrary
            (Some (mkProject (isValid p) (isReadOnly p)
                     (projectItem :: projectItems p) (S (saves p))))
            (S (tableUpdates l))
      end
  end.

(** Removal of the row at a position of the list. *)
Fixpoint removeAt (n : nat) (l : list Entry) : list Entry :=
  match n, l with
  | _, [] => []
  | O, _ :: l' => l'
  | S n', e :: l' => e :: removeAt n' l'
  end.

(** [LibraryComponent::removeFromLibrary]; item IDs are unique, so removing
    the ID of the row at [index] removes that row. *)
Definition removeFromLibrary (index : Z) (l : LibraryComponent) : LibraryComponent :=
  match libraryProject l with
  | None => l
  | Some p =>
      if (index <? 0)%Z || (Z.of_nat (List.length (projectItems p)) <=? index)%Z
      then l
      else mkLibrary
             (Some (mkProject (isValid p) (isReadOnly p)
                      (removeAt (Z.to_nat index) (projectItems p))
                      (S (saves p))))
             (S (tableUpdates l))
  end.

(** Replacement of the item of the row at a position of the list. *)
Fixpoint setItemAt (n : nat) (i : Library.ProjectItem) (l : list Entry) : list Entry :=
  match n, l with
  | _, [] => []
  | O, e :: l' => mkEntry (getSourceFile e) i :: l'
  | S n', e :: l' => e :: setItemAt n' i l'
  end.

(** [LibraryComponent::showBpmEditorWindow] on row [rowIndex], followed by a
    click on OK with [newBpm] in the editor. *)
Definition editBpm (rowIndex : Z) (newBpm : Q) (l : LibraryComponent) : LibraryComponent :=
  match libraryProject l with
  | None => l
  | Some p =>
      if (rowIndex <? 0)%Z || (Z.of_nat (List.length (projectItems p)) <=? rowIndex)%Z
      then l
      else
        match nth_error (projectItems p) (Z.to_nat rowIndex) with
        | None => l
        | Some projectItem =>
            if Qle_bool newBpm 0 then l
            else
              let e := Library.okButton_onClick newBpm
                         (Library.mkEditor (item projectItem) (saves p) true) in
              mkLibrary
                (Some (mkProject (isValid p) (isReadOnly p)
                         (setItemAt (Z.to_nat rowIndex) (Library.itemRef e)
                            (projectItems p))
                         (Library.projectSaves e)))
                (S (tableUpdates l))
        end
  end.

(** [LibraryComponent::cellDoubleClicked]: the path handed to
    [onFileSelected], if any; [exists] is [juce::File::exists] and the
    callback is taken to be set.  A negative row has no item. *)
Definition cellDoubleClicked (exists_ : string -> bool) (rowNumber : Z)
    (l : LibraryComponent) : option string :=
  match libraryProject l with
  | None => None
  | Some p =>
      if (Z.of_nat (List.length (projectItems p)) <=? rowNumber)%Z then None
      else if (rowNumber <? 0)%Z then None
      else
        match nth_error (projectItems p) (Z.to_nat rowNumber) with
        | Some projectItem =>
            if exists_ (getSourceFile projectItem)
            then Some (getSourceFile projectItem) else None
        | None => None
        end
  end.

(** The paths the library refers to, and the BPM values it holds. *)
Definition paths (l : LibraryComponent) : list string :=
  match libraryProject l with
  | Some p => map getSourceFile (projectItems p)
  | None => []
  end.

Definition bpms (l : LibraryComponent) : list Q :=
  match libraryProject l with
  | Some p => map (fun e => Library.bpm (item e)) (projectItems p)
  | None => []
  end.
(** The guards of [addToLibrary] all pass. *)
Definition accepted (file : AudioFile) (l : LibraryComponent) : Prop :=
  exists p, libraryProject l = Some p /\ isValid p = true /\ isReadOnly p = false /\
            existsAsFile file = true /\ formatKnown file = true /\
            readerCreated file = true.

(** An entry with a positive BPM. *)
Definition positive (e : Entry) : Prop := 0 < Library.bpm (item e).

(** Every BPM the library holds is positive. *)
Definition allPositive (l : LibraryComponent) : Prop :=
  match libraryProject l with
  | Some p => Forall positive (projectItems p)
  | None => True
  end.
End Project.

(** ** Axis events by stick *)

Module AxisEvents.
Import Axis.
Import Sdl.

Definition isLeftStick (e : Z * R) : bool :=
  (fst e =? SDL_GAMEPAD_AXIS_LEFTX)%Z || (fst e =? SDL_GAMEPAD_AXIS_LEFTY)%Z.

Definition isRightStick (e : Z * R) : bool :=
  (fst e =? SDL_GAMEPAD_AXIS_RIGHTX)%Z || (fst e =? SDL_GAMEPAD_AXIS_RIGHTY)%Z.

(** What the left stick's cases read and write. *)
Definition leftPart (s : State) : R * R * option Flanger :=
  (leftX s, leftY s, flangerComponent s).

(** What the right stick's cases read and write. *)
Definition rightPart (s : State) : R * R * option Phaser :=
  (rightX s, rightY s, phaserComponent s).
End AxisEvents.

(** * Properties *)

(** ** Loading a file *)

Module FileLoad.
Import MainComponent.
Local Open Scope Q_scope.

Lemma skipn_app_exact {A} (l l' : list A) : skipn (List.length l) (l ++ l') = l'.
Proof. induction l; simpl; auto. Qed.

(** A load of a valid file, field by field. *)
Lemma handleFileSelection_valid (file : File) (s : State) :
  existsAsFile file = true -> isValid file = true ->
  let bpm := getBPMForFile file in
  let name := getFileNameWithoutExtension file in
  exec (handleFileSelection file) s =
    mkState bpm ((60 / bpm) * 1000) (chopStartTime s) (chopReleaseDelay s)
      Playing (bpm * (screwTempo s / bpm)) 0 true 0
      [mkClip name 0 (getLength file) 0]
      [mkClip name 0 (getLength file) ((60 / bpm) * 1000 / 1000)]
      (calls s ++ loadCalls name (getLength file) bpm (screwTempo s)).
Proof.
  intros He Hv bpm name. unfold handleFileSelection. rewrite He, Hv.
  cbv [negb exec bind ret gets modify call removeAllClips insertWaveClip
       screw_getTempo screw_setBaseTempo screw_setTempo getCrossfaderValue
       setCrossfaderValue insertTempo_setBpm transport_stop
       transport_setPosition togglePlay updateCrossfader play updateTempo
       PlayState_eqb snd Z.eqb
       with_baseTempo with_trackOffset with_playState with_screwTempo
       with_crossfaderValue with_transportPlaying with_transportPosition
       with_track1 with_track2 with_calls
       baseTempo trackOffset chopStartTime chopReleaseDelay playState
       screwTempo crossfaderValue transportPlaying transportPosition track1
       track2 calls].
  simpl app at 1 2. unfold loadCalls. fold bpm name.
  repeat rewrite <- app_assoc. simpl app. reflexivity.
Qed.

(** Whatever the old base tempo was, the tempo handed to the screw
    component on a load is the live tempo it already had: the ratio is taken
    against the base tempo that line 359 has just overwritten. *)
Lemma handleFileSelection_live_tempo (file : File) (s : State) :
  existsAsFile file = true -> isValid file = true ->
  ~ getBPMForFile file == 0 ->
  screwTempo (exec (handleFileSelection file) s) == screwTempo s.
Proof.
  intros He Hv Hb. rewrite (handleFileSelection_valid file s He Hv).
  cbn [screwTempo]. field. exact Hb.
Qed.

Lemma updateTempo_exec (s : State) :
  exec updateTempo s =
    with_calls (calls s ++ [ TempoSequenceSetBpm (screwTempo s);
                             ThumbnailSetSpeedRatio (baseTempo s / screwTempo s);
                             DelaySetTempo (screwTempo s) ]) s.
Proof.
  destruct s. cbv [updateTempo exec bind gets modify call screw_getTempo
    insertTempo_setBpm with_calls snd baseTempo trackOffset chopStartTime
    chopReleaseDelay playState screwTempo crossfaderValue transportPlaying
    transportPosition track1 track2 calls].
  repeat rewrite <- app_assoc. reflexivity.
Qed.

Lemma newCalls_app (s s' : State) (l : list Call) :
  calls s' = calls s ++ l -> newCalls s s' = l.
Proof. intros H. unfold newCalls. rewrite H. apply skipn_app_exact. Qed.

Lemma newCalls_handleFileSelection (file : File) (s : State) :
  existsAsFile file = true -> isValid file = true ->
  newCalls s (exec (handleFileSelection file) s) =
    loadCalls (getFileNameWithoutExtension file) (getLength file)
              (getBPMForFile file) (screwTempo s).
Proof.
  intros He Hv. apply newCalls_app.
  rewrite (handleFileSelection_valid file s He Hv). reflexivity.
Qed.

Lemma newCalls_updateTempo (s : State) :
  newCalls s (exec updateTempo s) =
    [ TempoSequenceSetBpm (screwTempo s);
      ThumbnailSetSpeedRatio (baseTempo s / screwTempo s);
      DelaySetTempo (screwTempo s) ].
Proof. apply newCalls_app. rewrite updateTempo_exec. destruct s; reflexivity. Qed.

(** *** C1 *)

(** C1.  The claim: a reload keeps the ratio live/base, so that with base
    tempo 120 and live tempo 150, loading a file of base tempo 100 leaves
    the live tempo at 125.  The code assigns the new base tempo before it
    takes the ratio, so the ratio it "preserves" is live/newBase and the
    live tempo stays where it was: run on that input, the live tempo is
    150 and not 125, and the ratio live/base moves from 5/4 to 3/2. *)
Theorem C1_reload_keeps_live_tempo_not_ratio :
  let s := fresh 120 150 in
  let s' := exec (handleFileSelection (song 100)) s in
  baseTempo s' == 100 /\
  screwTempo s' == 150 /\
  ~ screwTempo s' == 125 /\
  screwTempo s / baseTempo s == 5 # 4 /\
  screwTempo s' / baseTempo s' == 3 # 2 /\
  In (ScrewSetTempo (100 * (150 / 100))) (newCalls s s').
Proof.
  vm_compute. repeat split; try discriminate. intuition.
Qed.

(** *** C2 *)

(** C2.  The claim: every tempo change pushes live/base to the waveform
    display.  [updateTempo] pushes base/live: with base tempo 120 and live
    tempo 150 the one ratio it hands to [setSpeedRatio] is 4/5, not 5/4.
    A load pushes live/base first (line 430) and base/live right after
    (through its own call of [updateTempo]). *)
Theorem C2_updateTempo_pushes_base_over_live :
  let s := fresh 120 150 in
  (exists r, speedRatios (newCalls s (exec updateTempo s)) = [r] /\
             r == 4 # 5 /\ ~ r == screwTempo s / baseTempo s) /\
  (let s' := exec (handleFileSelection (song 100)) s in
   exists r1 r2, speedRatios (newCalls s s') = [r1; r2] /\
                 r1 == screwTempo s' / baseTempo s' /\
                 r2 == baseTempo s' / screwTempo s' /\
                 ~ r2 == screwTempo s' / baseTempo s').
Proof.
  cbv zeta. split.
  - rewrite newCalls_updateTempo. simpl speedRatios. eexists. split; [reflexivity|].
    split; vm_compute; (reflexivity || discriminate).
  - rewrite newCalls_handleFileSelection by reflexivity.
    unfold loadCalls. simpl speedRatios. do 2 eexists. split; [reflexivity|].
    repeat split; vm_compute; (reflexivity || discriminate).
Qed.

(** In general: the ratio [updateTempo] pushes is base/live. *)
Lemma updateTempo_speed_ratio (s : State) :
  speedRatios (newCalls s (exec updateTempo s)) = [baseTempo s / screwTempo s].
Proof. rewrite newCalls_updateTempo. reflexivity. Qed.

(** *** C3 *)

Lemma delayTimeAfter_app (l l' : list Call) (d : Q) :
  delayTimeAfter (l ++ l') d = delayTimeAfter l' (delayTimeAfter l d).
Proof. unfold delayTimeAfter. apply fold_left_app. Qed.

(** C3, as stated, fails on a load: with live tempo 150, loading a file of
    base tempo 100 hands 600 ms to [setDelayTime], a quarter note at the
    base tempo, where a quarter note at the live tempo is 400 ms. *)
Lemma C3_load_pushes_base_quarter_note :
  let s := fresh 120 150 in
  let s' := exec (handleFileSelection (song 100)) s in
  exists ms, In ms (delayTimesSet (newCalls s s')) /\
             ms == 600 /\
             ~ ms == (60 / screwTempo s') * 1000.
Proof.
  cbv zeta. rewrite newCalls_handleFileSelection by reflexivity.
  unfold loadCalls. simpl delayTimesSet. eexists. split; [left; reflexivity|].
  split; vm_compute; (reflexivity || discriminate).
Qed.

(** C3, amended.  A tempo change ([updateTempo]) hands no delay time to the
    delay effect itself: it hands it the live tempo ([setTempo]), from which
    the effect derives (60/live)*1000 ms.  A load hands [setDelayTime] the
    quarter note at the new base tempo, (60/base)*1000 ms, and then, through
    its own [updateTempo], the live tempo, so that the delay time after the
    load is (60/live)*1000 ms again. *)
Theorem C3_delay_follows_live_tempo (file : File) (s : State) (d : Q) :
  existsAsFile file = true -> isValid file = true ->
  0 < getBPMForFile file -> 0 < screwTempo s ->
  let t := exec updateTempo s in
  let s' := exec (handleFileSelection file) s in
  (delayTimesSet (newCalls s t) = [] /\
   delayTemposSet (newCalls s t) = [screwTempo s] /\
   screwTempo t = screwTempo s /\
   delayTimeAfter (newCalls s t) d == (60 / screwTempo t) * 1000) /\
  (delayTimesSet (newCalls s s') = [(60 / baseTempo s') * 1000] /\
   delayTemposSet (newCalls s s') = [screwTempo s'] /\
   0 < screwTempo s' /\
   delayTimeAfter (newCalls s s') d == (60 / screwTempo s') * 1000).
Proof.
  intros He Hv Hb Hl t s'. split.
  - subst t. rewrite newCalls_updateTempo, updateTempo_exec.
    destruct s; cbn. repeat split; reflexivity.
  - subst s'. rewrite newCalls_handleFileSelection by assumption.
    assert (Hlive := handleFileSelection_live_tempo file s He Hv).
    rewrite (handleFileSelection_valid file s He Hv) in *.
    cbn [screwTempo baseTempo] in *.
    repeat split; try reflexivity.
    rewrite Hlive by (intro E; rewrite E in Hb; discriminate). exact Hl.
Qed.

Lemma C3_delay_follows_live_tempo_witness :
  let s := fresh 120 150 in
  let s' := exec (handleFileSelection (song 100)) s in
  delayTimesSet (newCalls s s') = [(60 / baseTempo s') * 1000] /\
  delayTimeAfter (newCalls s s') 0 == (60 / screwTempo s') * 1000.
Proof.
  cbv zeta.
  destruct (C3_delay_follows_live_tempo (song 100) (fresh 120 150) 0
              eq_refl eq_refl eq_refl eq_refl) as [_ (H1 & _ & _ & H2)].
  split; [exact H1 | exact H2].
Defined.

(** *** C7 *)

(** C7.  After a load of a file whose base tempo is positive, the track
    offset is (60/baseTempo)*1000 ms, whatever it was before; deck A's clip
    and deck B's clip both start at position 0 with the file's length, deck
    A's with offset 0 and deck B's with the track offset, in seconds, as its
    clip offset; at base tempo 120 the offset is 500 ms. *)
Theorem C7_track_offset (file : File) (s : State) :
  existsAsFile file = true -> isValid file = true ->
  0 < getBPMForFile file ->
  let s' := exec (handleFileSelection file) s in
  baseTempo s' = getBPMForFile file /\
  trackOffset s' == (60 / baseTempo s') * 1000 /\
  (exists clip1, track1 s' = [clip1] /\ clipStart clip1 == 0 /\
                 clipOffset clip1 == 0 /\ clipLength clip1 = getLength file) /\
  (exists clip2, track2 s' = [clip2] /\ clipStart clip2 == 0 /\
                 clipOffset clip2 * 1000 == trackOffset s' /\
                 clipLength clip2 = getLength file /\
                 In (InsertWaveClip 1 clip2) (newCalls s s')) /\
  (getBPMForFile file == 120 -> trackOffset s' == 500).
Proof.
  intros He Hv Hb s'. subst s'.
  rewrite newCalls_handleFileSelection by assumption.
  rewrite (handleFileSelection_valid file s He Hv).
  cbn [baseTempo trackOffset track1 track2].
  split; [reflexivity|]. split; [reflexivity|].
  split; [eexists; split; [reflexivity|]; cbn; repeat split; reflexivity|].
  split.
  - eexists. split; [reflexivity|]. cbn [clipStart clipOffset clipLength].
    split; [reflexivity|].
    split; [field; intro E; rewrite E in Hb; discriminate Hb|].
    split; [reflexivity|].
    unfold loadCalls. simpl. intuition.
  - intros E. rewrite E. reflexivity.
Qed.

Lemma C7_track_offset_witness :
  trackOffset (exec (handleFileSelection (song 120)) (fresh 90 90)) == 500.
Proof.
  destruct (C7_track_offset (song 120) (fresh 90 90) eq_refl eq_refl eq_refl)
    as (_ & _ & _ & _ & H).
  apply H. reflexivity.
Defined.

(** *** C9 *)

(** The BPM editor refuses a value that is not positive: nothing is stored,
    nothing is saved and the dialog stays as it was. *)
Lemma okButton_refuses_nonpositive (newBpm : Q) (e : Library.Editor) :
  newBpm <= 0 -> Library.okButton_onClick newBpm e = e.
Proof.
  intros H. unfold Library.okButton_onClick.
  apply Qle_bool_iff in H. rewrite H. reflexivity.
Qed.

(** A positive value is stored. *)
Lemma okButton_stores_positive (newBpm : Q) (e : Library.Editor) :
  0 < newBpm ->
  Library.bpm (Library.itemRef (Library.okButton_onClick newBpm e)) = newBpm.
Proof.
  intros H. unfold Library.okButton_onClick.
  destruct (Qle_bool newBpm 0) eqn:E; [|reflexivity].
  apply Qle_bool_iff in E. exfalso. apply (Qlt_not_le _ _ H E).
Qed.

(** The BPM stored when a file is added is positive whatever the detector
    estimates. *)
Lemma detectedBPM_positive (tempBPM : Q) : 0 < Library.detectedBPM tempBPM.
Proof.
  unfold Library.detectedBPM. destruct (Qle_bool tempBPM 0) eqn:E; simpl.
  - reflexivity.
  - apply Qnot_le_lt. intro H. apply Qle_bool_iff in H. congruence.
Qed.

(** The BPM editor opens with a positive value whatever is stored. *)
Lemma currentBpm_positive (item : Library.ProjectItem) : 0 < Library.currentBpm item.
Proof.
  unfold Library.currentBpm. destruct (Qle_bool (Library.bpm item) 0) eqn:E.
  - reflexivity.
  - apply Qnot_le_lt. intro H. apply Qle_bool_iff in H. congruence.
Qed.

(** C9.  The claim: a base tempo that is not positive is refused.  The BPM
    editor does refuse it, but a load does not look at the value: run on a
    valid file whose library BPM is 0, with base tempo 120 before, it makes
    0 the base tempo and hands 0 on to the screw component, the clips and
    the tempo sequence. *)
Theorem C9_load_takes_zero_base_tempo :
  let s := fresh 120 120 in
  let s' := exec (handleFileSelection (song 0)) s in
  baseTempo s == 120 /\
  baseTempo s' == 0 /\
  ~ 0 < baseTempo s' /\
  In (ScrewSetBaseTempo 0) (newCalls s s') /\
  In (ClipSetBpm 0 0) (newCalls s s') /\
  In (TempoSequenceSetBpm 0) (newCalls s s') /\
  (forall e, Library.okButton_onClick 0 e = e).
Proof.
  cbv zeta. rewrite newCalls_handleFileSelection by reflexivity.
  rewrite (handleFileSelection_valid (song 0) (fresh 120 120) eq_refl eq_refl).
  cbn [baseTempo song getBPMForFile getFileNameWithoutExtension getLength fresh].
  split; [reflexivity|]. split; [reflexivity|].
  split; [intro H; discriminate H|].
  split; [unfold loadCalls; simpl; intuition|].
  split; [unfold loadCalls; simpl; intuition|].
  split; [unfold loadCalls; simpl; intuition|].
  intro e. apply okButton_refuses_nonpositive. discriminate.
Qed.

(** In general a load makes the library BPM the base tempo, whatever its
    sign. *)
Lemma handleFileSelection_baseTempo (file : File) (s : State) :
  existsAsFile file = true -> isValid file = true ->
  baseTempo (exec (handleFileSelection file) s) = getBPMForFile file.
Proof.
  intros He Hv. rewrite (handleFileSelection_valid file s He Hv). reflexivity.
Qed.

(** *** C10 *)

(** C10.  For a file that does not exist as a file, or is not a valid audio
    file, [handleFileSelection] returns at once: the state it returns is
    the state it was given, so no clip is removed or inserted, base tempo,
    track offset, crossfader position and transport are as before, and no
    call is made on any collaborator. *)
Theorem C10_invalid_file_is_noop (file : File) (s : State) :
  existsAsFile file = false \/ isValid file = false ->
  handleFileSelection file s = (tt, s) /\
  newCalls s (exec (handleFileSelection file) s) = [].
Proof.
  intros H.
  assert (E : handleFileSelection file s = (tt, s)).
  { unfold handleFileSelection.
    destruct (existsAsFile file) eqn:He; [|reflexivity].
    destruct H as [H|H]; [discriminate|]. rewrite H. reflexivity. }
  split; [exact E|].
  unfold exec. rewrite E. cbn [snd]. unfold newCalls.
  rewrite <- (app_nil_r (calls s)) at 2. apply skipn_app_exact.
Qed.

Lemma C10_invalid_file_is_noop_witness :
  let s := exec (handleFileSelection (song 100)) (fresh 120 150) in
  handleFileSelection (mkFile true false "noise" 180 90) s = (tt, s).
Proof.
  cbv zeta.
  exact (proj1 (C10_invalid_file_is_noop (mkFile true false "noise" 180 90) _
                  (or_intror eq_refl))).
Defined.
End FileLoad.

(** ** The chop gesture *)

Module Chop.
Import MainComponent.
Import Sdl.
Local Open Scope Q_scope.

Lemma newCalls_calls (s s' : State) (l : list Call) :
  calls s' = calls s ++ l -> newCalls s s' = l.
Proof. intros H. unfold newCalls. rewrite H. apply FileLoad.skipn_app_exact. Qed.

(** [static_cast<int>] keeps the whole milliseconds of a delay that is not
    negative and lies below 2^31 ms. *)
Lemma static_cast_int_bounds (q : Q) :
  0 <= q -> q < 2147483648 ->
  exists z, static_cast_int q = Some z /\ (0 <= z <= INT_MAX)%Z /\
            inject_Z z <= q /\ q < inject_Z z + 1.
Proof.
  destruct q as [n d]. unfold static_cast_int, Qle, Qlt, inject_Z, INT_MIN, INT_MAX.
  cbn. intros H Hr. rewrite Z.mul_1_r in H, Hr.
  rewrite Z.quot_div_nonneg by lia.
  pose proof (Z.div_mod n (Z.pos d) ltac:(lia)) as Hdm.
  pose proof (Z.mod_pos_bound n (Z.pos d) ltac:(lia)) as Hm.
  assert (Hlo : (0 <= n / Z.pos d)%Z) by (apply Z.div_pos; lia).
  assert (Hhi : (n / Z.pos d <= 2147483647)%Z) by nia.
  exists (n / Z.pos d)%Z.
  destruct (Z.leb_spec (-2147483648) (n / Z.pos d)); [|lia].
  destruct (Z.leb_spec (n / Z.pos d) 2147483647); [|lia].
  cbn [andb]. split; [reflexivity|]. split; [lia|]. split; nia.
Qed.

(** From 2^31 ms on it has no value. *)
Lemma static_cast_int_undefined (q : Q) :
  2147483648 <= q -> static_cast_int q = None.
Proof.
  destruct q as [n d]. unfold static_cast_int, Qle, INT_MIN, INT_MAX.
  cbn. intros Hr. rewrite Z.mul_1_r in Hr.
  rewrite Z.quot_div_nonneg by lia.
  pose proof (Z.div_mod n (Z.pos d) ltac:(lia)) as Hdm.
  pose proof (Z.mod_pos_bound n (Z.pos d) ltac:(lia)) as Hm.
  assert (Hhi : (2147483648 <= n / Z.pos d)%Z) by nia.
  destruct (Z.leb_spec (n / Z.pos d) 2147483647); [lia|].
  rewrite andb_false_r. reflexivity.
Qed.

(** The press handler, mouse or gamepad. *)
Lemma press_exec (now : Q) (s : State) :
  let target := if Qle_bool (crossfaderValue s) (1#2) then 1 else 0 in
  exec (onChopButtonPressed now) s =
    mkState (baseTempo s) (trackOffset s) now (chopReleaseDelay s)
      (playState s) (screwTempo s) target (transportPlaying s)
      (transportPosition s) (track1 s) (track2 s)
      (calls s ++ [SetCrossfaderValue target]) /\
  exec (gamepadButtonPressed now SDL_GAMEPAD_BUTTON_SOUTH) s =
    exec (onChopButtonPressed now) s.
Proof. destruct s. split; reflexivity. Qed.

(** *** C6 *)

(** C6.  A chop press, from the mouse or from the gamepad's south button,
    records the press time and sets the crossfader once: to 1 if it stood
    at or below 0.5, to 0 if it stood above; nothing else changes. *)
Theorem C6_press_toggles (now : Q) (s : State) :
  let m := exec (onChopButtonPressed now) s in
  let g := exec (gamepadButtonPressed now SDL_GAMEPAD_BUTTON_SOUTH) s in
  g = m /\
  chopStartTime m = now /\
  (crossfaderValue s <= 1 # 2 -> crossfaderValue m = 1) /\
  (1 # 2 < crossfaderValue s -> crossfaderValue m = 0) /\
  newCalls s m = [SetCrossfaderValue (crossfaderValue m)] /\
  baseTempo m = baseTempo s /\ trackOffset m = trackOffset s /\
  screwTempo m = screwTempo s /\ chopReleaseDelay m = chopReleaseDelay s.
Proof.
  intros m g. subst m g. destruct (press_exec now s) as [Hm Hg].
  rewrite Hg, Hm. cbn [chopStartTime crossfaderValue baseTempo trackOffset
                        screwTempo chopReleaseDelay].
  split; [reflexivity|]. split; [reflexivity|].
  split; [intros H; apply Qle_bool_iff in H; rewrite H; reflexivity|].
  split.
  - intros H. destruct (Qle_bool (crossfaderValue s) (1#2)) eqn:E; [|reflexivity].
    apply Qle_bool_iff in E. exfalso. apply (Qlt_not_le _ _ H E).
  - split; [apply newCalls_calls; reflexivity|]. repeat split; reflexivity.
Qed.

Lemma C6_press_toggles_witness :
  crossfaderValue (exec (onChopButtonPressed 1000) (fresh 120 120)) = 1 /\
  crossfaderValue
    (exec (onChopButtonPressed 1200) (exec (onChopButtonPressed 1000) (fresh 120 120))) = 0.
Proof.
  split.
  - destruct (C6_press_toggles 1000 (fresh 120 120)) as (_ & _ & H & _).
    apply H. discriminate.
  - destruct (C6_press_toggles 1200 (exec (onChopButtonPressed 1000) (fresh 120 120)))
      as (_ & _ & _ & H & _).
    apply H. reflexivity.
Defined.

(** *** C5 *)

Lemma onChopButtonReleased_exec (getChopDurationInMs : Q -> Q) (now : Q) (s : State) :
  exec (onChopButtonReleased getChopDurationInMs now) s =
    released (getChopDurationInMs (screwTempo s)) now s.
Proof.
  destruct s. unfold released, onChopButtonReleased.
  cbv [exec bind gets screw_getTempo chopStartTime screwTempo snd].
  destruct (Qle_bool _ _); reflexivity.
Qed.

Lemma gamepadButtonReleased_exec (now : Q) (s : State) :
  exec (gamepadButtonReleased now SDL_GAMEPAD_BUTTON_SOUTH) s =
    released (trackOffset s) now s.
Proof.
  destruct s. unfold released, gamepadButtonReleased.
  cbv [exec bind gets chopStartTime trackOffset snd Z.eqb SDL_GAMEPAD_BUTTON_SOUTH].
  destruct (Qle_bool _ _); reflexivity.
Qed.

Lemma released_late (minimumTime now : Q) (s : State) :
  minimumTime <= now - chopStartTime s ->
  let s' := released minimumTime now s in
  let target := if Qle_bool (crossfaderValue s) (1#2) then 1 else 0 in
  crossfaderValue s' = target /\
  newCalls s s' = [SetCrossfaderValue target] /\
  chopReleaseDelay s' = chopReleaseDelay s.
Proof.
  intros H. unfold released. apply Qle_bool_iff in H. rewrite H. cbn.
  repeat split. apply newCalls_calls. reflexivity.
Qed.

Lemma released_early (minimumTime now : Q) (s : State) :
  now - chopStartTime s < minimumTime ->
  let s' := released minimumTime now s in
  let delay := minimumTime - (now - chopStartTime s) in
  crossfaderValue s' = crossfaderValue s /\
  chopReleaseDelay s' = delay /\
  calls s' = calls s ++ [StartTimer (static_cast_int delay)] /\
  newCalls s s' = [StartTimer (static_cast_int delay)].
Proof.
  intros H. unfold released.
  destruct (Qle_bool minimumTime (now - chopStartTime s)) eqn:E.
  { apply Qle_bool_iff in E. exfalso. apply (Qlt_not_le _ _ H E). }
  cbn. split; [reflexivity|]. split; [reflexivity|].
  split; [reflexivity|]. apply newCalls_calls; reflexivity.
Qed.

Lemma timerRunning_app (l l' : list Call) :
  timerRunning (l ++ l') = fold_left timer_step l' (timerRunning l).
Proof. unfold timerRunning. apply fold_left_app. Qed.

(** The firing of a timer that is still to fire. *)
Lemma timerFires_pending (s : State) :
  timerRunning (calls s) = true ->
  let target := if Qle_bool (crossfaderValue s) (1#2) then 1 else 0 in
  let fired := exec timerFires s in
  crossfaderValue fired = target /\
  newCalls s fired = [StopTimer; SetCrossfaderValue target] /\
  timerRunning (calls fired) = false /\
  exec timerFires fired = fired.
Proof.
  intros Hr target fired.
  assert (Hf : fired =
            mkState (baseTempo s) (trackOffset s) (chopStartTime s)
              (chopReleaseDelay s) (playState s) (screwTempo s) target
              (transportPlaying s) (transportPosition s) (track1 s) (track2 s)
              (calls s ++ [StopTimer; SetCrossfaderValue target])).
  { subst fired. unfold exec, timerFires. rewrite Hr. destruct s.
    cbv [timerCallback bind gets modify call getCrossfaderValue
         setCrossfaderValue snd with_calls with_crossfaderValue baseTempo
         trackOffset chopStartTime chopReleaseDelay playState screwTempo
         crossfaderValue transportPlaying transportPosition track1 track2 calls].
    repeat rewrite <- app_assoc. reflexivity. }
  assert (Hoff : timerRunning (calls fired) = false).
  { rewrite Hf. cbn [calls]. rewrite timerRunning_app. reflexivity. }
  split; [rewrite Hf; reflexivity|].
  split; [apply newCalls_calls; rewrite Hf; reflexivity|].
  split; [exact Hoff|].
  unfold exec, timerFires. rewrite Hoff. reflexivity.
Qed.

(** C5, as stated, fails on the delay: a south button pressed at 1000 ms
    and let go at 1100.5 ms, with a track offset of 500 ms, is 399.5 ms
    short of the minimum hold; the timer is started with 399. *)
Lemma C5_timer_delay_is_truncated :
  let s := exec (gamepadButtonPressed 1000 SDL_GAMEPAD_BUTTON_SOUTH) (fresh 120 120) in
  let now := 2201 # 2 in
  let s' := exec (gamepadButtonReleased now SDL_GAMEPAD_BUTTON_SOUTH) s in
  trackOffset s - (now - chopStartTime s) == 799 # 2 /\
  chopReleaseDelay s' == 799 # 2 /\
  timersStarted (newCalls s s') = [Some 399%Z] /\
  ~ inject_Z 399 == trackOffset s - (now - chopStartTime s).
Proof.
  cbv zeta. split; [reflexivity|]. split; [reflexivity|].
  split; [reflexivity|]. vm_compute. discriminate.
Qed.

(** C5, amended.  A chop release, from the mouse (minimum hold: the chop
    duration at the live tempo) or from the gamepad's south button (minimum
    hold: the track offset), that comes at or after the minimum hold toggles
    the crossfader at once, exactly once, and schedules nothing: no timer is
    started and none that was running is touched.  One that comes earlier
    does not toggle: it keeps the exact remainder minimum - elapsed in
    [chopReleaseDelay] and starts the timer once, with the remainder
    converted to [int], which for a remainder below 2^31 ms is the remainder
    cut down to whole milliseconds and from 2^31 ms on is not defined.  The
    crossfader stays where it was until the timer fires; the firing toggles
    it, once, and stops the timer, so that a second firing does nothing. *)
Theorem C5_release (getChopDurationInMs : Q -> Q) (now : Q) (s : State) :
  let elapsed := now - chopStartTime s in
  let target := if Qle_bool (crossfaderValue s) (1#2) then 1 else 0 in
  forall (mouse : bool),
  let minimumTime :=
    if mouse then getChopDurationInMs (screwTempo s) else trackOffset s in
  let s' :=
    if mouse then exec (onChopButtonReleased getChopDurationInMs now) s
    else exec (gamepadButtonReleased now SDL_GAMEPAD_BUTTON_SOUTH) s in
  (minimumTime <= elapsed ->
     crossfaderValue s' = target /\
     newCalls s s' = [SetCrossfaderValue target] /\
     crossfaderSets (newCalls s s') = 1%nat /\
     timersStarted (newCalls s s') = [] /\
     timerRunning (calls s') = timerRunning (calls s)) /\
  (elapsed < minimumTime ->
     let delay := minimumTime - elapsed in
     let fired := exec timerFires s' in
     crossfaderValue s' = crossfaderValue s /\
     crossfaderSets (newCalls s s') = 0%nat /\
     chopReleaseDelay s' = delay /\
     newCalls s s' = [StartTimer (static_cast_int delay)] /\
     timerRunning (calls s') = true /\
     (delay < 2147483648 ->
      exists interval, static_cast_int delay = Some interval /\
        (0 <= interval <= INT_MAX)%Z /\
        inject_Z interval <= delay /\ delay < inject_Z interval + 1) /\
     (2147483648 <= delay -> static_cast_int delay = None) /\
     crossfaderValue fired = target /\
     newCalls s' fired = [StopTimer; SetCrossfaderValue target] /\
     timerRunning (calls fired) = false /\
     exec timerFires fired = fired).
Proof.
  intros elapsed target mouse minimumTime s'.
  assert (Hs : s' = released minimumTime now s).
  { subst s' minimumTime. destruct mouse.
    - apply onChopButtonReleased_exec.
    - apply gamepadButtonReleased_exec. }
  rewrite Hs. split.
  - intros H. destruct (released_late minimumTime now s H) as (H1 & H2 & _).
    rewrite H2. split; [exact H1|]. repeat split.
    unfold released. apply Qle_bool_iff in H. fold elapsed. rewrite H.
    cbn [calls]. rewrite timerRunning_app. reflexivity.
  - intros H delay fired.
    destruct (released_early minimumTime now s H) as (H1 & H2 & H3 & H4).
    fold elapsed delay in H2, H3, H4.
    assert (Hrun : timerRunning (calls (released minimumTime now s)) = true).
    { rewrite H3, timerRunning_app. reflexivity. }
    destruct (timerFires_pending _ Hrun) as (F1 & F2 & F3 & F4).
    rewrite H1 in F1, F2. fold target in F1, F2.
    rewrite H4. split; [exact H1|]. split; [reflexivity|].
    split; [exact H2|]. split; [reflexivity|]. split; [exact Hrun|].
    split; [intro Hr; apply static_cast_int_bounds;
            [subst delay; Lqa.lra | exact Hr]|].
    split; [apply static_cast_int_undefined|].
    subst fired. repeat split; assumption.
Qed.

Lemma C5_release_witness :
  let s := exec (onChopButtonPressed 1000) (fresh 120 120) in
  let late := exec (onChopButtonReleased (fun t => 60 / t * 1000) 1600) s in
  let early := exec (onChopButtonReleased (fun t => 60 / t * 1000) (2201 # 2)) s in
  (crossfaderValue late = 0 /\ timersStarted (newCalls s late) = []) /\
  (crossfaderValue early = crossfaderValue s /\
   timersStarted (newCalls s early) = [Some 399%Z] /\
   crossfaderValue (exec timerFires early) = 0).
Proof.
  cbv zeta. split.
  - destruct (C5_release (fun t => 60 / t * 1000) 1600
                (exec (onChopButtonPressed 1000) (fresh 120 120)) true) as [H _].
    destruct H as (H1 & _ & _ & H2 & _); [discriminate | split; [exact H1 | exact H2]].
  - destruct (C5_release (fun t => 60 / t * 1000) (2201 # 2)
                (exec (onChopButtonPressed 1000) (fresh 120 120)) true) as [_ H].
    destruct H as (H1 & _ & _ & H4 & _ & _ & _ & H3 & _); [reflexivity|].
    split; [exact H1|]. split; [|exact H3].
    rewrite H4. vm_compute. reflexivity.
Defined.
End Chop.

(** ** The gain curve *)

Module GainCurve.
Import Gain.
Local Open Scope R_scope.

Lemma ln10_pos : 0 < ln 10.
Proof. rewrite <- ln_1. apply ln_increasing; lra. Qed.

(** 2^103 > 10^31 and 2^93 < 10^28 pin log10 2 between 0.3009 and 0.3011. *)
Lemma log10_2_lower : 31 / 103 < log10 2.
Proof.
  unfold log10. pose proof ln10_pos as H10.
  apply Rmult_lt_reg_r with (ln 10 * 103); [lra|].
  replace (31 / 103 * (ln 10 * 103)) with (INR 31 * ln 10) by (simpl; field).
  replace (ln 2 / ln 10 * (ln 10 * 103)) with (INR 103 * ln 2) by (simpl; field; lra).
  rewrite <- !ln_pow by lra.
  apply ln_increasing; [apply pow_lt; lra|].
  rewrite !pow_IZR. apply IZR_lt. reflexivity.
Qed.

Lemma log10_2_upper : log10 2 < 28 / 93.
Proof.
  unfold log10. pose proof ln10_pos as H10.
  apply Rmult_lt_reg_r with (ln 10 * 93); [lra|].
  replace (28 / 93 * (ln 10 * 93)) with (INR 28 * ln 10) by (simpl; field).
  replace (ln 2 / ln 10 * (ln 10 * 93)) with (INR 93 * ln 2) by (simpl; field; lra).
  rewrite <- !ln_pow by lra.
  apply ln_increasing; [apply pow_lt; lra|].
  rewrite !pow_IZR. apply IZR_lt. reflexivity.
Qed.

Lemma sqrt2_pos : 0 < sqrt 2.
Proof. apply sqrt_lt_R0. lra. Qed.

(** The level of both decks at the centre: -10 log10 2 dB. *)
Lemma log10_inv_sqrt2 : log10 (1 / sqrt 2) * 20 = - 10 * log10 2.
Proof.
  unfold log10. pose proof ln10_pos. pose proof sqrt2_pos.
  replace (1 / sqrt 2) with (/ sqrt 2) by (field; lra).
  rewrite ln_Rinv by assumption.
  assert (E : ln 2 = ln (sqrt 2) + ln (sqrt 2)).
  { rewrite <- ln_mult by assumption. rewrite sqrt_sqrt by lra. reflexivity. }
  rewrite E. field. lra.
Qed.

Lemma gainToDecibels_1 : gainToDecibels 1 = 0.
Proof.
  unfold gainToDecibels, log10. destruct (Rlt_dec 0 1); [|lra].
  rewrite ln_1. replace (0 / ln 10 * 20) with 0 by (field; pose proof ln10_pos; lra).
  apply Rmax_right. lra.
Qed.

Lemma gainToDecibels_centre :
  gainToDecibels (1 / sqrt 2) = - 10 * log10 2.
Proof.
  unfold gainToDecibels. pose proof sqrt2_pos.
  destruct (Rlt_dec 0 (1 / sqrt 2)) as [_|n].
  - rewrite log10_inv_sqrt2. apply Rmax_right.
    pose proof log10_2_upper. lra.
  - exfalso. apply n. apply Rdiv_lt_0_compat; lra.
Qed.

Lemma gainTrack1_pos (p : R) : 0 <= p < 1 -> 0 < gainTrack1 p.
Proof.
  intros H. unfold gainTrack1, halfPi. pose proof PI_RGT_0.
  apply cos_gt_0; nra.
Qed.

Lemma gainTrack2_pos (p : R) : 0 < p <= 1 -> 0 < gainTrack2 p.
Proof.
  intros H. unfold gainTrack2, halfPi. pose proof PI_RGT_0.
  apply sin_gt_0; nra.
Qed.

Lemma updateCrossfader_0 : updateCrossfader 0 = (0, -60).
Proof.
  unfold updateCrossfader, gainTrack1, gainTrack2, minDB.
  rewrite Rmult_0_l, cos_0, sin_0.
  destruct (Rle_dec 1 0); [lra|]. destruct (Rle_dec 0 0); [|lra].
  rewrite gainToDecibels_1. reflexivity.
Qed.

Lemma updateCrossfader_1 : updateCrossfader 1 = (-60, 0).
Proof.
  unfold updateCrossfader, gainTrack1, gainTrack2, minDB, halfPi.
  rewrite Rmult_1_l, cos_PI2, sin_PI2.
  destruct (Rle_dec 1 0); [lra|]. destruct (Rle_dec 0 0); [|lra].
  rewrite gainToDecibels_1. reflexivity.
Qed.

Lemma updateCrossfader_half :
  updateCrossfader (1 / 2) = (- 10 * log10 2, - 10 * log10 2).
Proof.
  unfold updateCrossfader, gainTrack1, gainTrack2, halfPi.
  replace (1 / 2 * (PI / 2)) with (PI / 4) by field.
  rewrite cos_PI4, sin_PI4. pose proof sqrt2_pos.
  destruct (Rle_dec (1 / sqrt 2) 0) as [l|_].
  - exfalso. assert (0 < 1 / sqrt 2) by (apply Rdiv_lt_0_compat; lra). lra.
  - rewrite gainToDecibels_centre. reflexivity.
Qed.

(** *** C4 *)

(** C4.  At every crossfader position p in [0,1] the linear gains are
    cos(p*pi/2) and sin(p*pi/2), both in [0,1] and of unit power together;
    a gain that is not positive gives -60 dB, which happens for deck A at
    p = 1 only and for deck B at p = 0 only, and every other gain goes
    through the decibel conversion; so the levels are (0, -60) at 0,
    (-60, 0) at 1, and within 0.01 dB of -3.01 on both decks at 0.5. *)
Theorem C4_gain_curve (p : R) :
  0 <= p <= 1 ->
  let gainLinearA := cos (p * (PI / 2)) in
  let gainLinearB := sin (p * (PI / 2)) in
  (0 <= gainLinearA <= 1 /\ 0 <= gainLinearB <= 1 /\
   gainLinearA * gainLinearA + gainLinearB * gainLinearB = 1) /\
  (gainLinearA <= 0 -> fst (updateCrossfader p) = -60) /\
  (0 < gainLinearA -> fst (updateCrossfader p) = gainToDecibels gainLinearA) /\
  (gainLinearB <= 0 -> snd (updateCrossfader p) = -60) /\
  (0 < gainLinearB -> snd (updateCrossfader p) = gainToDecibels gainLinearB) /\
  (gainLinearA <= 0 <-> p = 1) /\
  (gainLinearB <= 0 <-> p = 0) /\
  updateCrossfader 0 = (0, -60) /\
  updateCrossfader 1 = (-60, 0) /\
  Rabs (fst (updateCrossfader (1 / 2)) - (- 301 / 100)) < 1 / 100 /\
  Rabs (snd (updateCrossfader (1 / 2)) - (- 301 / 100)) < 1 / 100.
Proof.
  intros Hp gA gB.
  assert (HA : p < 1 -> 0 < gA) by (intro; apply (gainTrack1_pos p); lra).
  assert (HB : 0 < p -> 0 < gB) by (intro; apply (gainTrack2_pos p); lra).
  assert (HA1 : p = 1 -> gA = 0).
  { intro E. subst gA. rewrite E, Rmult_1_l. apply cos_PI2. }
  assert (HB0 : p = 0 -> gB = 0).
  { intro E. subst gB. rewrite E, Rmult_0_l. apply sin_0. }
  assert (HA0 : 0 <= gA).
  { destruct (Req_dec p 1) as [E|E]; [rewrite (HA1 E); lra|].
    left. apply HA. lra. }
  assert (HB1 : 0 <= gB).
  { destruct (Req_dec p 0) as [E|E]; [rewrite (HB0 E); lra|].
    left. apply HB. lra. }
  split.
  { pose proof (COS_bound (p * (PI / 2))). pose proof (SIN_bound (p * (PI / 2))).
    pose proof (sin2_cos2 (p * (PI / 2))) as S. unfold Rsqr in S.
    subst gA gB. repeat split; lra. }
  assert (Efst : fst (updateCrossfader p) =
                 if Rle_dec gA 0 then -60 else gainToDecibels gA) by reflexivity.
  assert (Esnd : snd (updateCrossfader p) =
                 if Rle_dec gB 0 then -60 else gainToDecibels gB) by reflexivity.
  rewrite Efst, Esnd.
  split. { intro H. destruct (Rle_dec gA 0); [reflexivity|lra]. }
  split. { intro H. destruct (Rle_dec gA 0); [lra|reflexivity]. }
  split. { intro H. destruct (Rle_dec gB 0); [reflexivity|lra]. }
  split. { intro H. destruct (Rle_dec gB 0); [lra|reflexivity]. }
  split.
  { split; [|intro E; rewrite (HA1 E); lra].
    intro H. destruct (Req_dec p 1) as [E|E]; [exact E|].
    assert (0 < gA) by (apply HA; lra). lra. }
  split.
  { split; [|intro E; rewrite (HB0 E); lra].
    intro H. destruct (Req_dec p 0) as [E|E]; [exact E|].
    assert (0 < gB) by (apply HB; lra). lra. }
  split; [exact updateCrossfader_0|]. split; [exact updateCrossfader_1|].
  rewrite updateCrossfader_half. cbn [fst snd].
  pose proof log10_2_lower. pose proof log10_2_upper.
  split; apply Rabs_def1; lra.
Qed.

Lemma C4_gain_curve_witness :
  fst (updateCrossfader (1 / 2)) = gainToDecibels (cos (1 / 2 * (PI / 2))) /\
  Rabs (fst (updateCrossfader (1 / 2)) - (- 301 / 100)) < 1 / 100.
Proof.
  assert (Hp : 0 <= 1 / 2 <= 1) by lra.
  destruct (C4_gain_curve (1 / 2) Hp) as (_ & _ & H & _ & _ & HA & _ & _ & _ & Hc & _).
  split; [|exact Hc].
  apply H. destruct (Rlt_le_dec 0 (cos (1 / 2 * (PI / 2)))) as [L|L]; [exact L|].
  apply HA in L. lra.
Defined.
End GainCurve.

(** ** The analog sticks *)

Module Sticks.
Import Axis.
Import Sdl.
Local Open Scope R_scope.

Lemma run_snoc (events : list (Z * R)) (e : Z * R) (s : State) :
  run (events ++ [e]) s = gamepadAxisMoved (fst e) (snd e) (run events s).
Proof. unfold run. rewrite fold_left_app. reflexivity. Qed.

Lemma lastSeen_snoc (axis : Z) (events : list (Z * R)) (e : Z * R) (d : R) :
  lastSeen axis (events ++ [e]) d =
    if (fst e =? axis)%Z then snd e else lastSeen axis events d.
Proof. unfold lastSeen. rewrite fold_left_app. reflexivity. Qed.

Lemma seen_snoc (axis : Z) (events : list (Z * R)) (e : Z * R) :
  seen axis (events ++ [e]) = seen axis events || (fst e =? axis)%Z.
Proof. unfold seen. rewrite existsb_app. simpl. rewrite orb_false_r. reflexivity. Qed.

(** The squared, normalised distance is half the squared distance. *)
Lemma curvedWidth_closed (x y : R) : curvedWidth x y = (x * x + y * y) / 2.
Proof.
  unfold curvedWidth.
  assert (H2 : 0 < sqrt 2) by (apply sqrt_lt_R0; lra).
  assert (Hs : sqrt 2 * sqrt 2 = 2) by (apply sqrt_sqrt; lra).
  assert (Hd : sqrt (x * x + y * y) * sqrt (x * x + y * y) = x * x + y * y)
    by (apply sqrt_sqrt; nra).
  replace (sqrt (x * x + y * y) / sqrt 2 * (sqrt (x * x + y * y) / sqrt 2))
    with ((sqrt (x * x + y * y) * sqrt (x * x + y * y)) / (sqrt 2 * sqrt 2))
    by (field; lra).
  rewrite Hd, Hs. reflexivity.
Qed.

Lemma jlimit_inside (lo hi v : R) : lo <= v <= hi -> jlimit lo hi v = v.
Proof.
  intros H. unfold jlimit.
  destruct (Rlt_dec v lo); [lra|]. destruct (Rlt_dec hi v); [lra|]. reflexivity.
Qed.

Lemma jlimit_bounds (lo hi v : R) : lo <= hi -> lo <= jlimit lo hi v <= hi.
Proof.
  intros H. unfold jlimit.
  destruct (Rlt_dec v lo); [lra|]. destruct (Rlt_dec hi v); lra.
Qed.

Ltac axis_cases a :=
  unfold gamepadAxisMoved;
  unfold SDL_GAMEPAD_AXIS_RIGHT_TRIGGER, SDL_GAMEPAD_AXIS_LEFT_TRIGGER,
    SDL_GAMEPAD_AXIS_LEFTX, SDL_GAMEPAD_AXIS_LEFTY, SDL_GAMEPAD_AXIS_RIGHTX,
    SDL_GAMEPAD_AXIS_RIGHTY in *;
  destruct (Z.eqb_spec a 5); [subst a|];
  [|destruct (Z.eqb_spec a 4); [subst a|];
    [|destruct (Z.eqb_spec a 0); [subst a|];
      [|destruct (Z.eqb_spec a 1); [subst a|];
        [|destruct (Z.eqb_spec a 2); [subst a|];
          [|destruct (Z.eqb_spec a 3); [subst a|]]]]]].

Lemma run_left (events : list (Z * R)) (s : State) (f0 : Flanger) :
  flangerComponent s = Some f0 -> leftInv events s (run events s).
Proof.
  intros Hf. induction events as [|[a v] events IH] using rev_ind.
  - unfold leftInv. cbn. repeat split. exists f0. repeat split; (assumption || discriminate).
  - rewrite run_snoc. unfold leftInv in *. rewrite !lastSeen_snoc, !seen_snoc.
    cbn [fst snd].
    destruct IH as (Hx & Hy & f & Hfl & Hs & Hd & Hw).
    set (s' := run events s) in *.
    assert (Keep : forall t : State,
               leftX t = leftX s' -> leftY t = leftY s' ->
               flangerComponent t = flangerComponent s' ->
               leftX t = lastSeen 0 events (leftX s) /\
               leftY t = lastSeen 1 events (leftY s) /\
               exists f1, flangerComponent t = Some f1 /\
                 (seen 0 events || false = true ->
                  speed f1 = lastSeen 0 events (leftX s) * 10) /\
                 (seen 1 events || false = true ->
                  depth f1 = lastSeen 1 events (leftY s) * 10) /\
                 (seen 0 events || false || (seen 1 events || false) = true ->
                  width f1 = jlimit 0 (99 / 100)
                               (curvedWidth (lastSeen 0 events (leftX s))
                                            (lastSeen 1 events (leftY s))))).
    { intros t E1 E2 E3. rewrite E1, E2, E3, !orb_false_r.
      unfold SDL_GAMEPAD_AXIS_LEFTX, SDL_GAMEPAD_AXIS_LEFTY in *.
      split; [assumption|]. split; [assumption|]. exists f.
      repeat split; assumption. }
    axis_cases a; cbn [Z.eqb Pos.eqb].
    + (* right trigger *)
      destruct (vinylBrakeComponent s'); apply Keep; reflexivity.
    + (* left trigger *)
      apply Keep; reflexivity.
    + (* left x *)
      cbn [leftX leftY flangerComponent]. rewrite Hfl.
      split; [reflexivity|]. split; [assumption|].
      eexists. split; [reflexivity|]. cbn [speed depth width].
      split; [reflexivity|]. rewrite orb_false_r.
      split; [assumption|]. intros _. rewrite Hy. reflexivity.
    + (* left y *)
      cbn [leftX leftY flangerComponent]. rewrite Hfl.
      split; [assumption|]. split; [reflexivity|].
      eexists. split; [reflexivity|]. cbn [speed depth width].
      rewrite orb_false_r.
      split; [assumption|]. split; [reflexivity|].
      intros _. rewrite Hx. reflexivity.
    + (* right x *)
      apply Keep; reflexivity.
    + (* right y *)
      apply Keep; reflexivity.
    + (* an identifier the switch has no case for *)
      apply Keep; reflexivity.
Qed.

Lemma run_right (events : list (Z * R)) (s : State) (p0 : Phaser) :
  phaserComponent s = Some p0 -> rightInv events s (run events s).
Proof.
  intros Hp. induction events as [|[a v] events IH] using rev_ind.
  - unfold rightInv. cbn. repeat split. exists p0. repeat split; (assumption || discriminate).
  - rewrite run_snoc. unfold rightInv in *. rewrite !lastSeen_snoc, !seen_snoc.
    cbn [fst snd].
    destruct IH as (Hx & Hy & p & Hph & Hs & Hd & Hw).
    set (s' := run events s) in *.
    assert (Keep : forall t : State,
               rightX t = rightX s' -> rightY t = rightY s' ->
               phaserComponent t = phaserComponent s' ->
               rightX t = lastSeen 2 events (rightX s) /\
               rightY t = lastSeen 3 events (rightY s) /\
               exists p1, phaserComponent t = Some p1 /\
                 (seen 2 events || false = true ->
                  rate p1 = lastSeen 2 events (rightX s) * 10) /\
                 (seen 3 events || false = true ->
                  phaserDepth p1 = lastSeen 3 events (rightY s) * 10) /\
                 (seen 2 events || false || (seen 3 events || false) = true ->
                  feedback p1 = jlimit 0 (70 / 100)
                                  (distance (lastSeen 2 events (rightX s))
                                            (lastSeen 3 events (rightY s))))).
    { intros t E1 E2 E3. rewrite E1, E2, E3, !orb_false_r.
      unfold SDL_GAMEPAD_AXIS_RIGHTX, SDL_GAMEPAD_AXIS_RIGHTY in *.
      split; [assumption|]. split; [assumption|]. exists p.
      repeat split; assumption. }
    axis_cases a; cbn [Z.eqb Pos.eqb].
    + (* right trigger *)
      destruct (vinylBrakeComponent s'); apply Keep; reflexivity.
    + (* left trigger *)
      apply Keep; reflexivity.
    + (* left x *)
      apply Keep; reflexivity.
    + (* left y *)
      apply Keep; reflexivity.
    + (* right x *)
      cbn [rightX rightY phaserComponent]. rewrite Hph.
      split; [reflexivity|]. split; [assumption|].
      eexists. split; [reflexivity|]. cbn [rate phaserDepth feedback].
      split; [reflexivity|]. rewrite orb_false_r.
      split; [assumption|]. intros _. rewrite Hy. reflexivity.
    + (* right y *)
      cbn [rightX rightY phaserComponent]. rewrite Hph.
      split; [assumption|]. split; [reflexivity|].
      eexists. split; [reflexivity|]. cbn [rate phaserDepth feedback].
      rewrite orb_false_r.
      split; [assumption|]. split; [reflexivity|].
      intros _. rewrite Hx. reflexivity.
    + (* an identifier the switch has no case for *)
      apply Keep; reflexivity.
Qed.

(** *** C8 *)

(** C8.  After any run of axis events, with a flanger and a phaser in
    place: if x and y are the values last seen on the left stick's axes
    (0 for an axis not seen yet), the flanger's width is
    clamp((sqrt(x^2+y^2)/sqrt 2)^2, 0, 0.99) once either axis has been
    seen, its speed is x*10 once the x axis has, its depth y*10 once the y
    axis has; likewise the phaser's feedback is clamp(sqrt(x^2+y^2), 0,
    0.70), its rate x*10 and its depth y*10 for the right stick.  The left
    stick at (1,0) gives width 0.5, at (0,0) width 0. *)
Theorem C8_sticks (events : list (Z * R)) (s : State) (f0 : Flanger) (p0 : Phaser) :
  flangerComponent s = Some f0 -> phaserComponent s = Some p0 ->
  let s' := run events s in
  let lx := lastSeen SDL_GAMEPAD_AXIS_LEFTX events (leftX s) in
  let ly := lastSeen SDL_GAMEPAD_AXIS_LEFTY events (leftY s) in
  let rx := lastSeen SDL_GAMEPAD_AXIS_RIGHTX events (rightX s) in
  let ry := lastSeen SDL_GAMEPAD_AXIS_RIGHTY events (rightY s) in
  (exists f, flangerComponent s' = Some f /\
     (seen SDL_GAMEPAD_AXIS_LEFTX events = true -> speed f = lx * 10) /\
     (seen SDL_GAMEPAD_AXIS_LEFTY events = true -> depth f = ly * 10) /\
     (seen SDL_GAMEPAD_AXIS_LEFTX events || seen SDL_GAMEPAD_AXIS_LEFTY events = true ->
      width f = jlimit 0 (99 / 100)
                  ((sqrt (lx * lx + ly * ly) / sqrt 2) *
                   (sqrt (lx * lx + ly * ly) / sqrt 2)) /\
      0 <= width f <= 99 / 100)) /\
  (exists p, phaserComponent s' = Some p /\
     (seen SDL_GAMEPAD_AXIS_RIGHTX events = true -> rate p = rx * 10) /\
     (seen SDL_GAMEPAD_AXIS_RIGHTY events = true -> phaserDepth p = ry * 10) /\
     (seen SDL_GAMEPAD_AXIS_RIGHTX events || seen SDL_GAMEPAD_AXIS_RIGHTY events = true ->
      feedback p = jlimit 0 (70 / 100) (sqrt (rx * rx + ry * ry)) /\
      0 <= feedback p <= 70 / 100)) /\
  jlimit 0 (99 / 100) ((sqrt (1 * 1 + 0 * 0) / sqrt 2) * (sqrt (1 * 1 + 0 * 0) / sqrt 2))
    = 1 / 2 /\
  jlimit 0 (99 / 100) ((sqrt (0 * 0 + 0 * 0) / sqrt 2) * (sqrt (0 * 0 + 0 * 0) / sqrt 2))
    = 0.
Proof.
  intros Hf Hp s' lx ly rx ry.
  destruct (run_left events s f0 Hf) as (_ & _ & f & Hfl & Hs & Hd & Hw).
  destruct (run_right events s p0 Hp) as (_ & _ & p & Hph & Hr & Hpd & Hfb).
  split; [|split; [|split]].
  - exists f. split; [exact Hfl|]. split; [exact Hs|]. split; [exact Hd|].
    intros H. rewrite (Hw H). split; [reflexivity|]. apply jlimit_bounds. lra.
  - exists p. split; [exact Hph|]. split; [exact Hr|]. split; [exact Hpd|].
    intros H. rewrite (Hfb H). split; [reflexivity|]. apply jlimit_bounds. lra.
  - change (jlimit 0 (99 / 100) (curvedWidth 1 0) = 1 / 2).
    rewrite curvedWidth_closed. rewrite jlimit_inside; lra.
  - change (jlimit 0 (99 / 100) (curvedWidth 0 0) = 0).
    rewrite curvedWidth_closed. rewrite jlimit_inside; lra.
Qed.

Lemma C8_sticks_witness :
  exists f, flangerComponent
              (run [(SDL_GAMEPAD_AXIS_LEFTX, 1); (SDL_GAMEPAD_AXIS_RIGHTX, 1 / 2);
                    (SDL_GAMEPAD_AXIS_LEFTY, 0)] atRest) = Some f /\
            speed f = 1 * 10 /\ depth f = 0 * 10 /\ width f = 1 / 2.
Proof.
  destruct (C8_sticks [(SDL_GAMEPAD_AXIS_LEFTX, 1); (SDL_GAMEPAD_AXIS_RIGHTX, 1 / 2);
                       (SDL_GAMEPAD_AXIS_LEFTY, 0)] atRest
              (mkFlanger 0 0 0) (mkPhaser 0 0 0) eq_refl eq_refl)
    as ((f & Hfl & Hs & Hd & Hw) & _ & H1 & _).
  exists f. split; [exact Hfl|].
  split; [exact (Hs eq_refl)|]. split; [exact (Hd eq_refl)|].
  destruct (Hw eq_refl) as [Hw' _]. rewrite Hw'. exact H1.
Defined.
End Sticks.

(** ** Loads, playback and the play state *)

Module PlaybackProps.
Import MainComponent.
Import Playback.
Import Sdl.
Local Open Scope Q_scope.

Lemma play_exec (s : State) :
  exec play s =
    mkState (baseTempo s) (trackOffset s) (chopStartTime s) (chopReleaseDelay s)
      (if negb (transportPlaying s) then Playing else Stopped)
      (screwTempo s) (crossfaderValue s) (negb (transportPlaying s))
      (transportPosition s) (track1 s) (track2 s)
      (calls s ++ [TogglePlay; SetPlayButtonState (negb (transportPlaying s));
                   SetStopButtonState (transportPlaying s)]).
Proof.
  destruct s as [b o c d ps t x tp pos t1 t2 l].
  cbv [play togglePlay exec bind gets modify call snd with_calls
       with_transportPlaying with_playState baseTempo trackOffset chopStartTime
       chopReleaseDelay playState screwTempo crossfaderValue transportPlaying
       transportPosition track1 track2 calls].
  destruct tp; cbv iota; repeat rewrite <- app_assoc; reflexivity.
Qed.

Lemma stop_exec (s : State) :
  exec stop s =
    mkState (baseTempo s) (trackOffset s) (chopStartTime s) (chopReleaseDelay s)
      Stopped (screwTempo s) (crossfaderValue s) false 0 (track1 s) (track2 s)
      (calls s ++ [TogglePlay; TransportStop; TransportSetPosition 0;
                   SetPlayButtonState false; SetStopButtonState true;
                   UpdateButtonStates]).
Proof.
  destruct s as [b o c d ps t x tp pos t1 t2 l].
  cbv [stop togglePlay_returnToStart transport_stop transport_setPosition exec
       bind gets modify call snd with_calls with_transportPlaying
       with_transportPosition with_playState baseTempo trackOffset
       chopStartTime chopReleaseDelay playState screwTempo crossfaderValue
       transportPlaying transportPosition track1 track2 calls].
  destruct tp; cbv iota; repeat rewrite <- app_assoc; reflexivity.
Qed.

(** X1.  A load of a valid file starts from a clean slate whatever the decks
    held and whatever the transport did: each deck holds exactly one clip, of
    the file's name and length, the crossfader is at 0, the transport plays
    from position 0 and the play state says so; the crossfader is set once, no
    timer is started, and the chop's press time and pending delay are left
    alone. *)
Theorem load_resets_decks_and_plays (file : File) (s : State) :
  existsAsFile file = true -> isValid file = true ->
  let s' := exec (handleFileSelection file) s in
  List.length (track1 s') = 1%nat /\ List.length (track2 s') = 1%nat /\
  (forall c, In c (track1 s' ++ track2 s') ->
     clipName c = getFileNameWithoutExtension file /\
     clipLength c = getLength file /\ clipStart c = 0) /\
  crossfaderValue s' = 0 /\
  transportPlaying s' = true /\ transportPosition s' = 0 /\
  playState s' = Playing /\
  crossfaderSets (newCalls s s') = 1%nat /\
  timersStarted (newCalls s s') = [] /\
  chopStartTime s' = chopStartTime s /\
  chopReleaseDelay s' = chopReleaseDelay s.
Proof.
  intros He Hv s'. subst s'.
  rewrite FileLoad.newCalls_handleFileSelection by assumption.
  rewrite (FileLoad.handleFileSelection_valid file s He Hv).
  cbn [track1 track2 crossfaderValue transportPlaying transportPosition
       playState chopStartTime chopReleaseDelay List.length app].
  repeat split; try reflexivity;
    destruct H as [H|[H|[]]]; subst c; reflexivity.
Qed.

Lemma load_resets_decks_and_plays_witness :
  let s := exec (handleFileSelection (song 90)) (fresh 120 150) in
  let s' := exec (handleFileSelection (song 100)) s in
  List.length (track2 s') = 1%nat /\ transportPlaying s' = true.
Proof.
  cbv zeta.
  destruct (load_resets_decks_and_plays (song 100)
              (exec (handleFileSelection (song 90)) (fresh 120 150))
              eq_refl eq_refl) as (_ & H2 & _ & _ & H5 & _).
  split; [exact H2 | exact H5].
Defined.

(** X2.  Loading the same valid file a second time changes nothing but the
    call log: base tempo, track offset, decks, crossfader, transport and play
    state are as after the first load, and so is the live tempo when the
    file's BPM is not zero. *)
Theorem load_twice (file : File) (s : State) :
  existsAsFile file = true -> isValid file = true ->
  ~ getBPMForFile file == 0 ->
  let s1 := exec (handleFileSelection file) s in
  let s2 := exec (handleFileSelection file) s1 in
  baseTempo s2 = baseTempo s1 /\ trackOffset s2 = trackOffset s1 /\
  track1 s2 = track1 s1 /\ track2 s2 = track2 s1 /\
  crossfaderValue s2 = crossfaderValue s1 /\
  transportPlaying s2 = transportPlaying s1 /\
  transportPosition s2 = transportPosition s1 /\
  playState s2 = playState s1 /\
  screwTempo s2 == screwTempo s1 /\
  newCalls s1 s2 = loadCalls (getFileNameWithoutExtension file) (getLength file)
                             (getBPMForFile file) (screwTempo s1).
Proof.
  intros He Hv Hb s1 s2. subst s2.
  rewrite FileLoad.newCalls_handleFileSelection by assumption.
  rewrite (FileLoad.handleFileSelection_valid file s1 He Hv).
  subst s1. rewrite (FileLoad.handleFileSelection_valid file s He Hv).
  cbn [baseTempo trackOffset track1 track2 crossfaderValue transportPlaying
       transportPosition playState screwTempo].
  repeat split; try reflexivity. field. exact Hb.
Qed.

Lemma load_twice_witness :
  let s1 := exec (handleFileSelection (song 100)) (fresh 120 150) in
  let s2 := exec (handleFileSelection (song 100)) s1 in
  track2 s2 = track2 s1 /\ screwTempo s2 == screwTempo s1.
Proof.
  cbv zeta.
  assert (Hb : ~ getBPMForFile (song 100) == 0) by discriminate.
  destruct (load_twice (song 100) (fresh 120 150) eq_refl eq_refl Hb)
    as (_ & _ & _ & H4 & _ & _ & _ & _ & H9 & _).
  split; [exact H4 | exact H9].
Defined.

(** X3.  [play] flips the transport and [stop] halts it at position 0, and
    after either, as after a load, the play state says what the transport
    does; two [play]s in a row bring the transport back to where it was. *)
Theorem play_stop_in_step (s : State) :
  (transportPlaying (exec play s) = negb (transportPlaying s) /\
   inStep (exec play s)) /\
  (transportPlaying (exec stop s) = false /\
   transportPosition (exec stop s) = 0 /\ inStep (exec stop s)) /\
  (transportPlaying (exec play (exec play s)) = transportPlaying s) /\
  (transportPlaying (exec play (exec stop s)) = true) /\
  (forall file, existsAsFile file = true -> isValid file = true ->
     inStep (exec (handleFileSelection file) s)) /\
  sameButCalls (exec stop (exec stop s)) (exec stop s).
Proof.
  unfold inStep, sameButCalls. rewrite !play_exec, !stop_exec.
  cbn [transportPlaying playState transportPosition].
  split; [split; [reflexivity|]; destruct (transportPlaying s); reflexivity|].
  split; [repeat split|].
  split; [apply negb_involutive|].
  split; [reflexivity|].
  split; [|reflexivity].
  intros file He Hv. rewrite (FileLoad.handleFileSelection_valid file s He Hv).
  reflexivity.
Qed.

End PlaybackProps.

(** ** Chop gestures *)

Module ChopProps.
Import MainComponent.
Import Playback.
Import Sdl.
Local Open Scope Q_scope.

Ltac run_handler :=
  cbv [onChopButtonPressed onChopButtonReleased gamepadButtonPressed
       gamepadButtonReleased updateTempo onTempoChanged screw_getTempo
       insertTempo_setBpm getCrossfaderValue setCrossfaderValue exec bind ret
       gets modify call snd with_calls with_chopStartTime with_chopReleaseDelay
       with_crossfaderValue baseTempo trackOffset chopStartTime
       chopReleaseDelay playState screwTempo crossfaderValue transportPlaying
       transportPosition track1 track2 calls chopOnly].

Lemma button_cases (b : Z) :
  b = SDL_GAMEPAD_BUTTON_SOUTH \/ b = SDL_GAMEPAD_BUTTON_DPAD_UP \/
  b = SDL_GAMEPAD_BUTTON_DPAD_RIGHT \/ b = SDL_GAMEPAD_BUTTON_DPAD_DOWN \/
  ((b =? SDL_GAMEPAD_BUTTON_SOUTH)%Z = false /\
   (b =? SDL_GAMEPAD_BUTTON_DPAD_UP)%Z = false /\
   (b =? SDL_GAMEPAD_BUTTON_DPAD_RIGHT)%Z = false /\
   (b =? SDL_GAMEPAD_BUTTON_DPAD_DOWN)%Z = false).
Proof.
  destruct (Z.eqb_spec b SDL_GAMEPAD_BUTTON_SOUTH); [auto|].
  destruct (Z.eqb_spec b SDL_GAMEPAD_BUTTON_DPAD_UP); [auto|].
  destruct (Z.eqb_spec b SDL_GAMEPAD_BUTTON_DPAD_RIGHT); [auto|].
  destruct (Z.eqb_spec b SDL_GAMEPAD_BUTTON_DPAD_DOWN); [auto|].
  do 4 right. auto.
Qed.

(** X4.  No chop handler, gamepad button or tempo update touches the base
    tempo, the track offset, the live tempo, the decks, the transport or the
    play state, whatever the button and whenever it comes. *)
Theorem handlers_leave_playback_alone
    (getChopDurationInMs : Q -> Q) (now tempo : Q) (buttonId : Z) (s : State) :
  chopOnly s (exec (onChopButtonPressed now) s) /\
  chopOnly s (exec (onChopButtonReleased getChopDurationInMs now) s) /\
  chopOnly s (exec (gamepadButtonPressed now buttonId) s) /\
  chopOnly s (exec (gamepadButtonReleased now buttonId) s) /\
  chopOnly s (exec updateTempo s) /\
  chopOnly s (exec (onTempoChanged tempo) s).
Proof.
  destruct s as [b o c d ps t x tp pos t1 t2 l].
  split; [run_handler; repeat split|].
  split; [run_handler; destruct (Qle_bool _ _); repeat split|].
  split.
  { destruct (button_cases buttonId) as [E|[E|[E|[E|(E1 & E2 & E3 & E4)]]]];
      try (rewrite E; run_handler; repeat split).
    unfold gamepadButtonPressed. rewrite E1, E2, E3, E4.
    run_handler. repeat split. }
  split.
  { destruct (button_cases buttonId) as [E|[E|[E|[E|(E1 & E2 & E3 & E4)]]]];
      try (rewrite E; run_handler;
           repeat match goal with
                  | |- context [if ?c then _ else _] => destruct c
                  end; repeat split).
    unfold gamepadButtonReleased. rewrite E1, E2, E3, E4.
    run_handler. repeat split. }
  split; run_handler; repeat split.
Qed.

(** X5.  A button that is not the south button never sets the crossfader,
    never starts a timer and leaves the press time and the pending delay
    alone; one that is none of south, d-pad up, d-pad right and d-pad down
    does nothing at all, pressed or released. *)
Theorem other_buttons_do_not_chop (now : Q) (buttonId : Z) (s : State) :
  buttonId <> SDL_GAMEPAD_BUTTON_SOUTH ->
  let p := exec (gamepadButtonPressed now buttonId) s in
  let r := exec (gamepadButtonReleased now buttonId) s in
  (sameButCalls s p /\ sameButCalls s r /\
   crossfaderSets (newCalls s p) = 0%nat /\ timersStarted (newCalls s p) = [] /\
   crossfaderSets (newCalls s r) = 0%nat /\ timersStarted (newCalls s r) = []) /\
  (buttonId <> SDL_GAMEPAD_BUTTON_DPAD_UP ->
   buttonId <> SDL_GAMEPAD_BUTTON_DPAD_RIGHT ->
   buttonId <> SDL_GAMEPAD_BUTTON_DPAD_DOWN -> p = s /\ r = s).
Proof.
  intros Hs p r. subst p r.
  assert (Hsk : forall c, newCalls s (with_calls (calls s ++ [c]) s) = [c]).
  { intro c. apply Chop.newCalls_calls. destruct s; reflexivity. }
  assert (Hnil : newCalls s s = []).
  { apply Chop.newCalls_calls. rewrite app_nil_r. reflexivity. }
  assert (Hone : forall c, exec (call c) s = with_calls (calls s ++ [c]) s) by reflexivity.
  assert (Hsame : forall c, sameButCalls s (with_calls (calls s ++ [c]) s)).
  { intro c. destruct s; reflexivity. }
  destruct (button_cases buttonId) as [E|[E|[E|[E|(E1 & E2 & E3 & E4)]]]];
    [contradiction| | | |].
  1-3: rewrite E;
       cbv [gamepadButtonPressed gamepadButtonReleased Z.eqb Pos.eqb
            SDL_GAMEPAD_BUTTON_SOUTH SDL_GAMEPAD_BUTTON_DPAD_UP
            SDL_GAMEPAD_BUTTON_DPAD_RIGHT SDL_GAMEPAD_BUTTON_DPAD_DOWN];
       rewrite !Hone, !Hsk; split;
       [repeat split; apply Hsame
       | intros N1 N2 N3; first [elim N1; reflexivity | elim N2; reflexivity
                                | elim N3; reflexivity]].
  unfold gamepadButtonPressed, gamepadButtonReleased.
  rewrite E1, E2, E3, E4. change (exec (ret tt) s) with s. rewrite Hnil.
  repeat split.
Qed.

Lemma other_buttons_do_not_chop_witness :
  let s := exec (gamepadButtonPressed 1000 SDL_GAMEPAD_BUTTON_SOUTH) (fresh 120 120) in
  crossfaderSets (newCalls s (exec (gamepadButtonPressed 1100 SDL_GAMEPAD_BUTTON_DPAD_UP) s))
    = 0%nat /\
  exec (gamepadButtonReleased 1100 SDL_GAMEPAD_BUTTON_DPAD_LEFT) s = s.
Proof.
  cbv zeta. split.
  - destruct (other_buttons_do_not_chop 1100 SDL_GAMEPAD_BUTTON_DPAD_UP
                (exec (gamepadButtonPressed 1000 SDL_GAMEPAD_BUTTON_SOUTH) (fresh 120 120)))
      as [(_ & _ & H & _) _]; [discriminate | exact H].
  - destruct (other_buttons_do_not_chop 1100 SDL_GAMEPAD_BUTTON_DPAD_LEFT
                (exec (gamepadButtonPressed 1000 SDL_GAMEPAD_BUTTON_SOUTH) (fresh 120 120)))
      as [_ H]; [discriminate|].
    destruct H as [_ H]; [discriminate | discriminate | discriminate | exact H].
Defined.

Lemma press_fields (now : Q) (s : State) :
  let s1 := exec (onChopButtonPressed now) s in
  chopStartTime s1 = now /\ trackOffset s1 = trackOffset s /\
  screwTempo s1 = screwTempo s /\
  crossfaderValue s1 = if Qle_bool (crossfaderValue s) (1 # 2) then 1 else 0.
Proof.
  cbv zeta. destruct (Chop.press_exec now s) as [H _]. rewrite H.
  repeat split.
Qed.

(** X6.  A chop that is held for at least the minimum hold (the chop
    duration at the live tempo for the mouse, the track offset for the
    gamepad) ends on the side it started from: the press sends the crossfader
    to the far extreme and the release sends it back, so that a crossfader at
    0 or at 1 is exactly where it was. *)
Theorem held_chop_returns (getChopDurationInMs : Q -> Q) (t0 t1 : Q) (s : State) :
  let m := exec (onChopButtonReleased getChopDurationInMs t1)
             (exec (onChopButtonPressed t0) s) in
  let g := exec (gamepadButtonReleased t1 SDL_GAMEPAD_BUTTON_SOUTH)
             (exec (gamepadButtonPressed t0 SDL_GAMEPAD_BUTTON_SOUTH) s) in
  let home := if Qle_bool (crossfaderValue s) (1 # 2) then 0 else 1 in
  (getChopDurationInMs (screwTempo s) <= t1 - t0 ->
     crossfaderValue m = home /\
     (crossfaderValue s = 0 \/ crossfaderValue s = 1 ->
      crossfaderValue m = crossfaderValue s)) /\
  (trackOffset s <= t1 - t0 ->
     crossfaderValue g = home /\
     (crossfaderValue s = 0 \/ crossfaderValue s = 1 ->
      crossfaderValue g = crossfaderValue s)).
Proof.
  intros m g home.
  destruct (Chop.press_exec t0 s) as [Hp Hg].
  destruct (press_fields t0 s) as (Hc & Ho & Ht & Hx).
  assert (Hhome : forall s2 : State,
            crossfaderValue s2 =
              (if Qle_bool (crossfaderValue (exec (onChopButtonPressed t0) s)) (1 # 2)
               then 1 else 0) ->
            crossfaderValue s2 = home /\
            (crossfaderValue s = 0 \/ crossfaderValue s = 1 ->
             crossfaderValue s2 = crossfaderValue s)).
  { intros s2 E. rewrite E, Hx. subst home.
    destruct (Qle_bool (crossfaderValue s) (1 # 2)) eqn:Q.
    - split; [reflexivity|]. intros [Z|Z]; [symmetry; exact Z|].
      rewrite Z in Q. discriminate Q.
    - split; [reflexivity|]. intros [Z|Z]; [|symmetry; exact Z].
      rewrite Z in Q. discriminate Q. }
  split.
  - intros H. subst m. rewrite Chop.onChopButtonReleased_exec.
    apply Hhome.
    apply (Chop.released_late _ t1 (exec (onChopButtonPressed t0) s)).
    rewrite Ht, Hc. exact H.
  - intros H. subst g. rewrite Hg, Chop.gamepadButtonReleased_exec.
    apply Hhome.
    apply (Chop.released_late _ t1 (exec (onChopButtonPressed t0) s)).
    rewrite Ho, Hc. exact H.
Qed.

Lemma held_chop_returns_witness :
  crossfaderValue
    (exec (gamepadButtonReleased 1500 SDL_GAMEPAD_BUTTON_SOUTH)
       (exec (gamepadButtonPressed 1000 SDL_GAMEPAD_BUTTON_SOUTH) (fresh 120 120)))
  = crossfaderValue (fresh 120 120).
Proof.
  destruct (held_chop_returns (fun t => 60 / t * 1000) 1000 1500 (fresh 120 120))
    as [_ H].
  destruct H as [_ H]; [discriminate|]. apply H. left. reflexivity.
Defined.

(** X7.  A chop let go before the minimum hold leaves the crossfader on the
    far side the press sent it to and starts the timer once.  When less than
    2^31 ms are left of the hold, the timer's interval is a whole number of
    milliseconds within the range of [int], never negative, never more than
    what is left of the hold and never a whole millisecond less, and it is 0
    when less than a millisecond is left; from 2^31 ms on the conversion to
    [int] gives the interval no value. *)
Theorem early_release_timer (getChopDurationInMs : Q -> Q) (t0 t1 : Q) (s : State) :
  let pressed := exec (onChopButtonPressed t0) s in
  let m := exec (onChopButtonReleased getChopDurationInMs t1) pressed in
  let left := getChopDurationInMs (screwTempo s) - (t1 - t0) in
  0 < left ->
  crossfaderValue m = crossfaderValue pressed /\
  (crossfaderValue m = 0 \/ crossfaderValue m = 1) /\
  newCalls pressed m = [StartTimer (static_cast_int left)] /\
  (left < 2147483648 ->
   exists interval,
     static_cast_int left = Some interval /\
     (0 <= interval <= INT_MAX)%Z /\
     inject_Z interval <= left /\ left < inject_Z interval + 1 /\
     (left < 1 -> interval = 0%Z)) /\
  (2147483648 <= left -> static_cast_int left = None).
Proof.
  intros pressed m left H.
  destruct (press_fields t0 s) as (Hc & Ho & Ht & Hx). fold pressed in Hc, Ho, Ht, Hx.
  subst m. rewrite Chop.onChopButtonReleased_exec. rewrite Ht.
  assert (He : t1 - chopStartTime pressed < getChopDurationInMs (screwTempo s)).
  { rewrite Hc. subst left. Lqa.lra. }
  destruct (Chop.released_early _ t1 pressed He) as (H1 & H2 & _ & H3).
  rewrite Hc in H3. fold left in H3.
  split; [exact H1|]. split.
  { rewrite H1, Hx. destruct (Qle_bool _ _); auto. }
  split; [exact H3|]. split; [|apply Chop.static_cast_int_undefined].
  intros Hr.
  destruct (Chop.static_cast_int_bounds left ltac:(Lqa.lra) Hr)
    as (z & Hz & Hrange & Hlo & Hhi).
  exists z. split; [exact Hz|]. split; [exact Hrange|].
  split; [exact Hlo|]. split; [exact Hhi|].
  intros L1. destruct (Z.eq_dec z 0) as [E|E]; [exact E|].
  exfalso. assert (1 <= inject_Z z).
  { change 1 with (inject_Z 1). rewrite <- Zle_Qle. lia. }
  Lqa.lra.
Qed.

Lemma early_release_timer_witness :
  let pressed := exec (onChopButtonPressed 1000) (fresh 120 120) in
  let left := 60 / 120 * 1000 - ((2999 # 2) - 1000) in
  newCalls pressed
    (exec (onChopButtonReleased (fun t => 60 / t * 1000) (2999 # 2)) pressed)
  = [StartTimer (static_cast_int left)] /\
  static_cast_int left = Some 0%Z.
Proof.
  cbv zeta.
  destruct (early_release_timer (fun t => 60 / t * 1000) 1000 (2999 # 2) (fresh 120 120))
    as (_ & _ & Hc & Hin & _); [reflexivity|].
  split; [exact Hc|].
  destruct Hin as (i & Hi & _ & _ & _ & H0); [reflexivity|].
  rewrite (H0 eq_refl) in Hi. exact Hi.
Defined.

(** X8.  After a load of a file with a positive BPM b, the gamepad's minimum
    hold is one beat of the file, 60000/b ms, whatever the live tempo: a
    south-button chop held that long swaps to deck B and back to deck A, a
    shorter one stays on deck B and starts the timer. *)
Theorem gamepad_chop_after_load (file : File) (t0 t1 : Q) (s : State) :
  existsAsFile file = true -> isValid file = true ->
  0 < getBPMForFile file ->
  let loaded := exec (handleFileSelection file) s in
  let pressed := exec (gamepadButtonPressed t0 SDL_GAMEPAD_BUTTON_SOUTH) loaded in
  let released := exec (gamepadButtonReleased t1 SDL_GAMEPAD_BUTTON_SOUTH) pressed in
  crossfaderValue loaded = 0 /\ crossfaderValue pressed = 1 /\
  (60000 / getBPMForFile file <= t1 - t0 ->
     crossfaderValue released = 0 /\ timersStarted (newCalls pressed released) = []) /\
  (t1 - t0 < 60000 / getBPMForFile file ->
     crossfaderValue released = 1 /\
     exists interval, timersStarted (newCalls pressed released) = [interval]).
Proof.
  intros He Hv Hb loaded pressed released.
  assert (Hl : crossfaderValue loaded = 0 /\
               trackOffset loaded = 60 / getBPMForFile file * 1000).
  { subst loaded. rewrite (FileLoad.handleFileSelection_valid file s He Hv).
    split; reflexivity. }
  destruct Hl as [Hl0 Hlo].
  destruct (Chop.press_exec t0 loaded) as [_ Hg].
  destruct (press_fields t0 loaded) as (Hc & Ho & _ & Hx).
  fold pressed in Hg. rewrite <- Hg in Hc, Ho, Hx.
  rewrite Hl0 in Hx. change (Qle_bool 0 (1 # 2)) with true in Hx. cbv iota in Hx.
  assert (Hoff : trackOffset pressed == 60000 / getBPMForFile file).
  { rewrite Ho, Hlo. field. intro E. rewrite E in Hb. discriminate Hb. }
  split; [exact Hl0|]. split; [exact Hx|].
  subst released. rewrite Chop.gamepadButtonReleased_exec. split.
  - intros H.
    assert (H' : trackOffset pressed <= t1 - chopStartTime pressed).
    { rewrite Hc, Hoff. exact H. }
    destruct (Chop.released_late _ t1 pressed H') as (H1 & H2 & _).
    rewrite H2, H1, Hx. split; reflexivity.
  - intros H.
    assert (H' : t1 - chopStartTime pressed < trackOffset pressed).
    { rewrite Hc, Hoff. exact H. }
    destruct (Chop.released_early _ t1 pressed H') as (H1 & _ & _ & H3).
    rewrite H3, H1, Hx. split; [reflexivity|]. eexists. reflexivity.
Qed.

Lemma gamepad_chop_after_load_witness :
  let loaded := exec (handleFileSelection (song 100)) (fresh 120 150) in
  let pressed := exec (gamepadButtonPressed 1000 SDL_GAMEPAD_BUTTON_SOUTH) loaded in
  crossfaderValue (exec (gamepadButtonReleased 1600 SDL_GAMEPAD_BUTTON_SOUTH) pressed) = 0 /\
  crossfaderValue (exec (gamepadButtonReleased 1599 SDL_GAMEPAD_BUTTON_SOUTH) pressed) = 1.
Proof.
  cbv zeta. split.
  - destruct (gamepad_chop_after_load (song 100) 1000 1600 (fresh 120 150)
                eq_refl eq_refl eq_refl) as (_ & _ & H & _).
    destruct H as [H _]; [discriminate | exact H].
  - destruct (gamepad_chop_after_load (song 100) 1000 1599 (fresh 120 150)
                eq_refl eq_refl eq_refl) as (_ & _ & _ & H).
    destruct H as [H _]; [reflexivity | exact H].
Defined.
End ChopProps.

(** ** The tempo percentage *)

Module TempoProps.
Import MainComponent.
Import Playback.
Local Open Scope Q_scope.

Lemma isTempoPercentageActive_iff (percentage : Q) (s : State) :
  isTempoPercentageActive percentage s = true <->
  Qabs (screwTempo s / baseTempo s - percentage) < 1 # 1000.
Proof.
  unfold isTempoPercentageActive. rewrite negb_true_iff. split.
  - intros H. apply Qnot_le_lt. intro L. apply Qle_bool_iff in L. congruence.
  - intros H. destruct (Qle_bool _ _) eqn:E; [|reflexivity].
    apply Qle_bool_iff in E. exfalso. apply (Qlt_not_le _ _ H E).
Qed.

(** X9.  With a base tempo that is not zero, a tempo percentage is active
    when the live tempo is that fraction of the base tempo to within 0.001, that is when the tempo adjustment the
    vinyl brake reads is within 0.001 of the percentage less one; the exact
    ratio is always active, and two percentages that are active together lie
    less than 0.002 apart, so that of two percentages 0.002 or more apart at
    most one is active. *)
Theorem tempo_percentage_exclusive (p q : Q) (s : State) :
  ~ baseTempo s == 0 ->
  (screwTempo s / baseTempo s == p -> isTempoPercentageActive p s = true) /\
  (isTempoPercentageActive p s = true <->
   Qabs (getCurrentTempoAdjustment s - (p - 1)) < 1 # 1000) /\
  (isTempoPercentageActive p s = true -> isTempoPercentageActive q s = true ->
   Qabs (p - q) < 2 # 1000) /\
  (2 # 1000 <= Qabs (p - q) -> isTempoPercentageActive p s = true ->
   isTempoPercentageActive q s = false).
Proof.
  intros _.
  assert (Hex : isTempoPercentageActive p s = true ->
                isTempoPercentageActive q s = true -> Qabs (p - q) < 2 # 1000).
  { intros Hp Hq. apply isTempoPercentageActive_iff in Hp, Hq.
    apply Qabs_Qlt_condition in Hp. apply Qabs_Qlt_condition in Hq.
    apply Qabs_Qlt_condition. split; Lqa.lra. }
  split.
  { intros E. apply isTempoPercentageActive_iff.
    apply Qabs_Qlt_condition. split; Lqa.lra. }
  split.
  { rewrite isTempoPercentageActive_iff. unfold getCurrentTempoAdjustment.
    rewrite !Qabs_Qlt_condition. split; intros [A B]; split; Lqa.lra. }
  split; [exact Hex|].
  intros Hd Hp. destruct (isTempoPercentageActive q s) eqn:Hq; [|reflexivity].
  exfalso. apply (Qlt_not_le _ _ (Hex Hp eq_refl) Hd).
Qed.

Lemma tempo_percentage_exclusive_witness :
  isTempoPercentageActive (5 # 4) (fresh 120 150) = true /\
  isTempoPercentageActive 1 (fresh 120 150) = false.
Proof.
  assert (Hb : ~ baseTempo (fresh 120 150) == 0) by discriminate.
  destruct (tempo_percentage_exclusive (5 # 4) 1 (fresh 120 150) Hb) as (H1 & _ & _ & H4).
  assert (Ha : isTempoPercentageActive (5 # 4) (fresh 120 150) = true)
    by (apply H1; reflexivity).
  split; [exact Ha|]. apply H4; [discriminate | exact Ha].
Defined.
End TempoProps.

(** ** The shape of the gain curve *)

Module GainShape.
Import Gain.
Local Open Scope R_scope.

(** The level the code gives a linear gain. *)
Lemma level_cases (g : R) :
  (if Rle_dec g 0 then minDB else gainToDecibels g) =
  (if Rle_dec g 0 then -60 else Rmax (-100) (log10 g * 20)).
Proof.
  unfold minDB, gainToDecibels.
  destruct (Rle_dec g 0); [reflexivity|]. destruct (Rlt_dec 0 g); [reflexivity|lra].
Qed.

Lemma ln_le_0 (g : R) : 0 < g <= 1 -> ln g <= 0.
Proof.
  intros [H0 [H1|H1]].
  - left. rewrite <- ln_1. apply ln_increasing; assumption.
  - rewrite H1, ln_1. lra.
Qed.

Lemma ln_mono (a b : R) : 0 < a <= b -> ln a <= ln b.
Proof.
  intros [H0 [H1|H1]].
  - left. apply ln_increasing; assumption.
  - rewrite H1. lra.
Qed.

Lemma level_bounds (g : R) :
  g <= 1 -> -100 <= (if Rle_dec g 0 then minDB else gainToDecibels g) <= 0.
Proof.
  intros H. rewrite level_cases. destruct (Rle_dec g 0); [lra|].
  split; [apply Rmax_l|]. apply Rmax_lub; [lra|].
  unfold log10. pose proof GainCurve.ln10_pos as H10.
  assert (ln g <= 0) by (apply ln_le_0; lra).
  assert (ln g / ln 10 <= 0).
  { unfold Rdiv. assert (0 < / ln 10) by (apply Rinv_0_lt_compat; lra). nra. }
  lra.
Qed.

Lemma level_mono (a b : R) :
  0 < a <= b ->
  (if Rle_dec a 0 then minDB else gainToDecibels a) <=
  (if Rle_dec b 0 then minDB else gainToDecibels b).
Proof.
  intros H. rewrite !level_cases.
  destruct (Rle_dec a 0); [lra|]. destruct (Rle_dec b 0); [lra|].
  apply Rle_max_compat_l. unfold log10. pose proof GainCurve.ln10_pos as H10.
  assert (ln a <= ln b) by (apply ln_mono; lra).
  assert (0 < / ln 10) by (apply Rinv_0_lt_compat; lra).
  unfold Rdiv. nra.
Qed.

(** A linear gain of at most 10^-5 is below the floor of the conversion. *)
Lemma level_floor (g : R) :
  0 < g <= / 10 ^ 5 -> (if Rle_dec g 0 then minDB else gainToDecibels g) = -100.
Proof.
  intros H. rewrite level_cases. destruct (Rle_dec g 0); [lra|].
  apply Rmax_left. unfold log10. pose proof GainCurve.ln10_pos as H10.
  assert (H5 : 0 < 10 ^ 5) by (apply pow_lt; lra).
  assert (L : ln g <= ln (/ 10 ^ 5)) by (apply ln_mono; lra).
  rewrite ln_Rinv in L by assumption. rewrite ln_pow in L by lra.
  simpl INR in L.
  assert (0 < / ln 10) by (apply Rinv_0_lt_compat; lra).
  assert (E : ln g / ln 10 * 20 = ln g * 20 * / ln 10) by (field; lra).
  rewrite E. apply Rmult_le_reg_r with (ln 10); [lra|].
  rewrite Rmult_assoc, Rinv_l by lra. lra.
Qed.

(** X10.  At every position, inside [0,1] or not, both levels lie between
    -100 dB and 0 dB. *)
Theorem levels_bounded (position : R) :
  -100 <= fst (updateCrossfader position) <= 0 /\
  -100 <= snd (updateCrossfader position) <= 0.
Proof.
  unfold updateCrossfader. cbn [fst snd]. split; apply level_bounds.
  - unfold gainTrack1. apply COS_bound.
  - unfold gainTrack2. apply SIN_bound.
Qed.

(** X11.  The curve is symmetric: deck A's level at a position is deck B's
    level at the mirrored position 1 - p, and the other way round. *)
Theorem levels_mirrored (position : R) :
  updateCrossfader (1 - position) =
    (snd (updateCrossfader position), fst (updateCrossfader position)).
Proof.
  unfold updateCrossfader, gainTrack1, gainTrack2, halfPi. cbn [fst snd].
  replace ((1 - position) * (PI / 2)) with (PI / 2 - position * (PI / 2)) by ring.
  rewrite cos_shift, sin_shift. reflexivity.
Qed.

(** X12.  Deck A's level never rises as the crossfader moves from 0 towards
    1, as long as it stays short of 1; within a millionth of 1 it has reached
    the conversion's floor of -100 dB, and at 1 itself it is back up at
    -60 dB. *)
Theorem deckA_level_falls_then_jumps (p q : R) :
  0 <= p <= q -> q < 1 ->
  fst (updateCrossfader q) <= fst (updateCrossfader p) /\
  (1 - / 10 ^ 6 <= q -> fst (updateCrossfader q) = -100) /\
  fst (updateCrossfader 1) = -60 /\
  fst (updateCrossfader q) <= fst (updateCrossfader 0).
Proof.
  intros Hpq Hq. pose proof PI_RGT_0 as Hpi. pose proof PI_4 as Hpi4.
  assert (Hgq : 0 < gainTrack1 q) by (apply GainCurve.gainTrack1_pos; lra).
  assert (Hmono : forall r, 0 <= r <= q ->
            fst (updateCrossfader q) <= fst (updateCrossfader r)).
  { intros r Hr. unfold updateCrossfader. cbn [fst]. apply level_mono.
    split; [exact Hgq|]. unfold gainTrack1, halfPi.
    apply cos_decr_1; nra. }
  split; [apply Hmono; exact Hpq|].
  split.
  - intros Hnear. unfold updateCrossfader. cbn [fst]. apply level_floor.
    split; [exact Hgq|]. unfold gainTrack1, halfPi.
    replace (q * (PI / 2)) with (PI / 2 - (1 - q) * (PI / 2)) by ring.
    rewrite cos_shift.
    assert (H6 : 0 < / 10 ^ 6) by (apply Rinv_0_lt_compat; apply pow_lt; lra).
    assert (Hx : 0 < (1 - q) * (PI / 2)) by nra.
    pose proof (sin_lt_x _ Hx) as Hs.
    assert (E : / 10 ^ 5 = 10 * / 10 ^ 6) by (simpl; field).
    rewrite E. nra.
  - split.
    + rewrite GainCurve.updateCrossfader_1. reflexivity.
    + apply Hmono. lra.
Qed.

Lemma deckA_level_falls_then_jumps_witness :
  fst (updateCrossfader (3 / 4)) <= fst (updateCrossfader (1 / 4)) /\
  fst (updateCrossfader (1 - / 10 ^ 6)) = -100.
Proof.
  assert (H6 : 0 < / 10 ^ 6 < 1 / 4).
  { split; [apply Rinv_0_lt_compat; apply pow_lt; lra|].
    apply Rmult_lt_reg_r with (10 ^ 6); [apply pow_lt; lra|].
    rewrite Rinv_l by (apply pow_nonzero; lra). simpl. lra. }
  split.
  - assert (H1 : 0 <= 1 / 4 <= 3 / 4) by lra. assert (H2 : 3 / 4 < 1) by lra.
    exact (proj1 (deckA_level_falls_then_jumps (1 / 4) (3 / 4) H1 H2)).
  - assert (H1 : 0 <= 1 / 4 <= 1 - / 10 ^ 6) by lra.
    assert (H2 : 1 - / 10 ^ 6 < 1) by lra.
    destruct (deckA_level_falls_then_jumps (1 / 4) (1 - / 10 ^ 6) H1 H2)
      as (_ & H & _).
    apply H. lra.
Defined.
End GainShape.

(** ** More on the sticks *)

Module StickProps.
Import Axis.
Import AxisEvents.
Import Sdl.
Local Open Scope R_scope.

Lemma jlimit_Rmin (hi v : R) : 0 <= v -> 0 <= hi -> jlimit 0 hi v = Rmin hi v.
Proof.
  intros Hv Hh. unfold jlimit, Rmin.
  destruct (Rlt_dec v 0); [lra|].
  destruct (Rlt_dec hi v); destruct (Rle_dec hi v); lra.
Qed.

Lemma sqrt_ge_iff (a c : R) : 0 <= a -> 0 <= c -> (c <= sqrt a <-> c * c <= a).
Proof.
  intros Ha Hc. pose proof (sqrt_pos a) as Hs.
  pose proof (sqrt_sqrt a Ha) as Hq. split; intro H.
  - nra.
  - destruct (Rle_lt_dec c (sqrt a)) as [L|L]; [exact L|]. nra.
Qed.

(** X13.  Once a stick has moved, with its effect in place, the curve has a
    closed form: the flanger's width is the smaller of 0.99 and half the
    squared distance of the left stick from the centre, so it sits at 0.99
    exactly when x^2 + y^2 is at least 1.98; the phaser's feedback is the
    smaller of 0.70 and the distance of the right stick, so it sits at 0.70
    exactly when x^2 + y^2 is at least 0.49. *)
Theorem stick_curves_closed_form
    (events : list (Z * R)) (s : State) (f0 : Flanger) (p0 : Phaser) :
  flangerComponent s = Some f0 -> phaserComponent s = Some p0 ->
  let s' := run events s in
  let lx := lastSeen SDL_GAMEPAD_AXIS_LEFTX events (leftX s) in
  let ly := lastSeen SDL_GAMEPAD_AXIS_LEFTY events (leftY s) in
  let rx := lastSeen SDL_GAMEPAD_AXIS_RIGHTX events (rightX s) in
  let ry := lastSeen SDL_GAMEPAD_AXIS_RIGHTY events (rightY s) in
  (seen SDL_GAMEPAD_AXIS_LEFTX events || seen SDL_GAMEPAD_AXIS_LEFTY events = true ->
   exists f, flangerComponent s' = Some f /\
     width f = Rmin (99 / 100) ((lx * lx + ly * ly) / 2) /\
     (width f = 99 / 100 <-> 198 / 100 <= lx * lx + ly * ly)) /\
  (seen SDL_GAMEPAD_AXIS_RIGHTX events || seen SDL_GAMEPAD_AXIS_RIGHTY events = true ->
   exists p, phaserComponent s' = Some p /\
     feedback p = Rmin (70 / 100) (sqrt (rx * rx + ry * ry)) /\
     (feedback p = 70 / 100 <-> 49 / 100 <= rx * rx + ry * ry)).
Proof.
  intros Hf Hp s' lx ly rx ry. split.
  - intros Hseen.
    destruct (Sticks.run_left events s f0 Hf) as (_ & _ & f & Hfl & _ & _ & Hw).
    exists f. split; [exact Hfl|].
    specialize (Hw Hseen). fold lx ly in Hw.
    rewrite Sticks.curvedWidth_closed in Hw.
    rewrite jlimit_Rmin in Hw by nra.
    split; [exact Hw|]. rewrite Hw. unfold Rmin.
    destruct (Rle_dec (99 / 100) ((lx * lx + ly * ly) / 2)); split; intros; lra.
  - intros Hseen.
    destruct (Sticks.run_right events s p0 Hp) as (_ & _ & p & Hph & _ & _ & Hfb).
    exists p. split; [exact Hph|].
    specialize (Hfb Hseen). fold rx ry in Hfb. unfold distance in Hfb.
    pose proof (sqrt_pos (rx * rx + ry * ry)) as Hs.
    rewrite jlimit_Rmin in Hfb by lra.
    split; [exact Hfb|]. rewrite Hfb.
    assert (Hiff := sqrt_ge_iff (rx * rx + ry * ry) (70 / 100)
                      ltac:(nra) ltac:(lra)).
    unfold Rmin. destruct (Rle_dec (70 / 100) (sqrt (rx * rx + ry * ry))) as [L|L].
    + split; [intros _; apply Hiff in L; lra | reflexivity].
    + split; [intros E; lra | intros H; exfalso; apply L; apply Hiff; lra].
Qed.

Lemma stick_curves_closed_form_witness :
  exists f, flangerComponent
              (run [(SDL_GAMEPAD_AXIS_LEFTX, 1); (SDL_GAMEPAD_AXIS_LEFTY, -1)] atRest)
            = Some f /\ width f = 99 / 100.
Proof.
  destruct (stick_curves_closed_form
              [(SDL_GAMEPAD_AXIS_LEFTX, 1); (SDL_GAMEPAD_AXIS_LEFTY, -1)] atRest
              (mkFlanger 0 0 0) (mkPhaser 0 0 0) eq_refl eq_refl) as [H _].
  destruct (H eq_refl) as (f & Hf & _ & Hw).
  exists f. split; [exact Hf|]. apply Hw.
  change (198 / 100 <= 1 * 1 + -1 * -1). lra.
Defined.

Lemma step_left_congr (a : Z) (v : R) (s t : State) :
  leftPart s = leftPart t ->
  leftPart (gamepadAxisMoved a v s) = leftPart (gamepadAxisMoved a v t).
Proof.
  unfold leftPart. intros E. injection E as Ex Ey Ef.
  Sticks.axis_cases a; cbn [Z.eqb Pos.eqb];
    try (destruct (vinylBrakeComponent s); destruct (vinylBrakeComponent t));
    cbn [leftX leftY flangerComponent]; rewrite ?Ex, ?Ey, ?Ef; reflexivity.
Qed.

Lemma step_right_congr (a : Z) (v : R) (s t : State) :
  rightPart s = rightPart t ->
  rightPart (gamepadAxisMoved a v s) = rightPart (gamepadAxisMoved a v t).
Proof.
  unfold rightPart. intros E. injection E as Ex Ey Ef.
  Sticks.axis_cases a; cbn [Z.eqb Pos.eqb];
    try (destruct (vinylBrakeComponent s); destruct (vinylBrakeComponent t));
    cbn [rightX rightY phaserComponent]; rewrite ?Ex, ?Ey, ?Ef; reflexivity.
Qed.

Lemma step_not_left (a : Z) (v : R) (s : State) :
  isLeftStick (a, v) = false -> leftPart (gamepadAxisMoved a v s) = leftPart s.
Proof.
  unfold isLeftStick, leftPart. cbn [fst]. intros H.
  Sticks.axis_cases a; cbn [Z.eqb Pos.eqb] in *;
    try discriminate H;
    try (destruct (vinylBrakeComponent s)); reflexivity.
Qed.

Lemma step_not_right (a : Z) (v : R) (s : State) :
  isRightStick (a, v) = false -> rightPart (gamepadAxisMoved a v s) = rightPart s.
Proof.
  unfold isRightStick, rightPart. cbn [fst]. intros H.
  Sticks.axis_cases a; cbn [Z.eqb Pos.eqb] in *;
    try discriminate H;
    try (destruct (vinylBrakeComponent s)); reflexivity.
Qed.

Lemma run_left_congr (events : list (Z * R)) (s t : State) :
  leftPart s = leftPart t -> leftPart (run events s) = leftPart (run events t).
Proof.
  revert s t. induction events as [|[a v] events IH]; intros s t E; [exact E|].
  cbn. apply IH. apply step_left_congr. exact E.
Qed.

Lemma run_right_congr (events : list (Z * R)) (s t : State) :
  rightPart s = rightPart t -> rightPart (run events s) = rightPart (run events t).
Proof.
  revert s t. induction events as [|[a v] events IH]; intros s t E; [exact E|].
  cbn. apply IH. apply step_right_congr. exact E.
Qed.

(** X14.  The two sticks do not interfere: what a run of axis events leaves
    in the flanger and in the left stick's last-seen values is what its
    left-stick events alone would leave, whatever triggers, right-stick
    moves or unknown axes come in between; likewise for the phaser and the
    right stick.  In particular a run without left-stick events leaves the
    flanger as it was. *)
Theorem sticks_do_not_interfere (events : list (Z * R)) (s : State) :
  leftPart (run events s) = leftPart (run (filter isLeftStick events) s) /\
  rightPart (run events s) = rightPart (run (filter isRightStick events) s) /\
  (filter isLeftStick events = [] ->
   flangerComponent (run events s) = flangerComponent s) /\
  (filter isRightStick events = [] ->
   phaserComponent (run events s) = phaserComponent s).
Proof.
  assert (HL : forall ev s, leftPart (run ev s) = leftPart (run (filter isLeftStick ev) s)).
  { induction ev as [|[a v] ev IH]; intros t; [reflexivity|].
    cbn [filter]. destruct (isLeftStick (a, v)) eqn:E.
    - cbn. apply IH.
    - change (run ((a, v) :: ev) t) with (run ev (gamepadAxisMoved a v t)).
      rewrite <- IH. apply run_left_congr. apply step_not_left. exact E. }
  assert (HR : forall ev s, rightPart (run ev s) = rightPart (run (filter isRightStick ev) s)).
  { induction ev as [|[a v] ev IH]; intros t; [reflexivity|].
    cbn [filter]. destruct (isRightStick (a, v)) eqn:E.
    - cbn. apply IH.
    - change (run ((a, v) :: ev) t) with (run ev (gamepadAxisMoved a v t)).
      rewrite <- IH. apply run_right_congr. apply step_not_right. exact E. }
  split; [apply HL|]. split; [apply HR|]. split; intros E.
  - pose proof (HL events s) as H. rewrite E in H. unfold leftPart in H.
    cbn in H. congruence.
  - pose proof (HR events s) as H. rewrite E in H. unfold rightPart in H.
    cbn in H. congruence.
Qed.

Lemma sticks_do_not_interfere_witness :
  flangerComponent
    (run [(SDL_GAMEPAD_AXIS_RIGHTX, 1); (SDL_GAMEPAD_AXIS_RIGHT_TRIGGER, 1 / 2);
          (SDL_GAMEPAD_AXIS_RIGHTY, -1)] atRest)
  = flangerComponent atRest.
Proof.
  destruct (sticks_do_not_interfere
              [(SDL_GAMEPAD_AXIS_RIGHTX, 1); (SDL_GAMEPAD_AXIS_RIGHT_TRIGGER, 1 / 2);
               (SDL_GAMEPAD_AXIS_RIGHTY, -1)] atRest) as (_ & _ & H & _).
  apply H. reflexivity.
Defined.
End StickProps.

(** ** The library *)

Module LibraryProps.
Import Project.
Local Open Scope Q_scope.

Lemma setBpmForFile_paths (path : string) (newBpm : Q) (l : list Entry) :
  map getSourceFile (setBpmForFile path newBpm l) = map getSourceFile l.
Proof.
  induction l as [|e l IH]; [reflexivity|]. cbn.
  destruct (String.eqb (getSourceFile e) path); cbn; [reflexivity|].
  rewrite IH. reflexivity.
Qed.

Lemma find_path_none (file : AudioFile) (p : Project) :
  getProjectItemForFile file p = None ->
  ~ In (getFullPathName file) (map getSourceFile (projectItems p)).
Proof.
  unfold getProjectItemForFile. intros H Hin.
  apply in_map_iff in Hin. destruct Hin as (e & He & Hine).
  pose proof (find_none _ _ H e Hine) as F. cbn in F.
  rewrite He, String.eqb_refl in F. discriminate.
Qed.

Lemma find_path_some (file : AudioFile) (p : Project) (e : Entry) :
  getProjectItemForFile file p = Some e ->
  In e (projectItems p) /\ getSourceFile e = getFullPathName file.
Proof.
  unfold getProjectItemForFile. intros H. apply find_some in H.
  destruct H as [Hin Heq]. split; [exact Hin|]. apply String.eqb_eq. exact Heq.
Qed.

Ltac guards p :=
  destruct (existsAsFile _) eqn:Gex; cbn [negb];
  [destruct (isValid p) eqn:Gv; cbn [negb];
   [destruct (isReadOnly p) eqn:Gro;
    [|destruct (formatKnown _) eqn:Gf; cbn [negb];
      [destruct (readerCreated _) eqn:Gr; cbn [negb]|]]|]|].

(** X15.  [addToLibrary] refuses without a trace: with no project, a file
    that does not exist, a project that is invalid or read-only, an unknown
    format or a file no reader opens, the library is left exactly as it was,
    nothing is saved and the table is not refreshed. *)
Theorem addToLibrary_refuses (file : AudioFile) (l : LibraryComponent) :
  ~ accepted file l -> addToLibrary file l = l.
Proof.
  intros H. unfold addToLibrary.
  destruct (libraryProject l) as [p|] eqn:Hp; [|reflexivity].
  guards p; try reflexivity.
  exfalso. apply H. exists p. repeat split; assumption.
Qed.

Lemma addToLibrary_refuses_witness :
  let l := mkLibrary (Some (mkProject true true [] 0)) 0 in
  addToLibrary (mkAudioFile "a.wav" "a" true true true 128) l = l.
Proof.
  cbv zeta. apply addToLibrary_refuses.
  intros (p & Hp & _ & Hro & _). injection Hp as <-. discriminate Hro.
Defined.

Lemma addToLibrary_paths (file : AudioFile) (l : LibraryComponent) :
  paths (addToLibrary file l) = paths l \/
  (~ In (getFullPathName file) (paths l) /\
   paths (addToLibrary file l) = getFullPathName file :: paths l).
Proof.
  unfold addToLibrary, paths.
  destruct (libraryProject l) as [p|] eqn:Hp; [|left; rewrite Hp; reflexivity].
  guards p; try (left; rewrite Hp; reflexivity).
  destruct (getProjectItemForFile file p) as [e|] eqn:Hfind.
  - left. destruct (negb _); cbn [libraryProject projectItems].
    + apply setBpmForFile_paths.
    + rewrite Hp. reflexivity.
  - right. split; [apply find_path_none; exact Hfind | reflexivity].
Qed.

(** X16.  [addToLibrary] never lists a file twice: the paths of the library
    after the call are the paths before, or the new path put in front of
    them when it was not among them; so a library without duplicates stays
    without duplicates, and once the guards pass the file is in the library,
    first row if it is new. *)
Theorem addToLibrary_no_duplicates (file : AudioFile) (l : LibraryComponent) :
  (paths (addToLibrary file l) = paths l \/
   (~ In (getFullPathName file) (paths l) /\
    paths (addToLibrary file l) = getFullPathName file :: paths l)) /\
  (NoDup (paths l) -> NoDup (paths (addToLibrary file l))) /\
  (accepted file l -> In (getFullPathName file) (paths (addToLibrary file l))) /\
  (accepted file l -> ~ In (getFullPathName file) (paths l) ->
   paths (addToLibrary file l) = getFullPathName file :: paths l) /\
  (getNumRows l <= getNumRows (addToLibrary file l) <= getNumRows l + 1)%Z.
Proof.
  pose proof (addToLibrary_paths file l) as Hp.
  split; [exact Hp|]. split.
  { intros Hnd. destruct Hp as [E|[Hn E]]; rewrite E; [exact Hnd|].
    constructor; assumption. }
  assert (Hacc : accepted file l ->
            (In (getFullPathName file) (paths l) /\
             paths (addToLibrary file l) = paths l) \/
            (~ In (getFullPathName file) (paths l) /\
             paths (addToLibrary file l) = getFullPathName file :: paths l)).
  { intros (p & Hlp & Hv & Hro & He & Hf & Hr).
    unfold addToLibrary, paths. rewrite Hlp, He, Hv, Hro, Hf, Hr. cbn [negb].
    destruct (getProjectItemForFile file p) as [e|] eqn:Hfind.
    - left. apply find_path_some in Hfind. destruct Hfind as [Hin Heq].
      split; [rewrite <- Heq; apply in_map; exact Hin|].
      destruct (negb _); cbn [libraryProject projectItems].
      + apply setBpmForFile_paths.
      + rewrite Hlp. reflexivity.
    - right. split; [apply find_path_none; exact Hfind | reflexivity]. }
  split.
  { intros Ha. destruct (Hacc Ha) as [[Hin E]|[_ E]]; rewrite E;
      [exact Hin | left; reflexivity]. }
  split.
  { intros Ha Hn. destruct (Hacc Ha) as [[Hin _]|[_ E]]; [contradiction | exact E]. }
  assert (Hrows : forall k, getNumRows k = Z.of_nat (List.length (paths k))).
  { intro k. unfold getNumRows, paths. destruct (libraryProject k); [|reflexivity].
    rewrite length_map. reflexivity. }
  rewrite !Hrows. destruct Hp as [E|[_ E]]; rewrite E; cbn [List.length]; lia.
Qed.

Lemma addToLibrary_no_duplicates_witness :
  let f := mkAudioFile "a.wav" "a" true true true 128 in
  let l := mkLibrary (Some (mkProject true false [] 0)) 0 in
  paths (addToLibrary f (addToLibrary f l)) = ["a.wav"%string] /\
  NoDup (paths (addToLibrary f (addToLibrary f l))).
Proof.
  cbv zeta.
  set (f := mkAudioFile "a.wav" "a" true true true 128).
  set (l := mkLibrary (Some (mkProject true false [] 0)) 0).
  destruct (addToLibrary_no_duplicates f l) as (_ & Hnd1 & _ & Hnew & _).
  destruct (addToLibrary_no_duplicates f (addToLibrary f l)) as (_ & Hnd2 & _).
  split; [reflexivity|]. apply Hnd2. apply Hnd1. constructor.
Defined.

Lemma find_setBpmForFile (path : string) (newBpm : Q) (l : list Entry) (e0 : Entry) :
  find (fun e => String.eqb (getSourceFile e) path) l = Some e0 ->
  find (fun e => String.eqb (getSourceFile e) path) (setBpmForFile path newBpm l) =
    Some (mkEntry (getSourceFile e0) (Library.mkItem (Library.itemName (item e0)) newBpm)).
Proof.
  induction l as [|e l IH]; [discriminate|]. cbn.
  destruct (String.eqb (getSourceFile e) path) eqn:E; cbn.
  - intros H. injection H as <-. rewrite E. reflexivity.
  - rewrite E. exact IH.
Qed.

Lemma Qabs_self (d : Q) : Qabs (d - d) <= 1 # 10.
Proof. apply Qabs_Qle_condition. split; Lqa.lra. Qed.

(** X17.  Once the guards pass, the library's entry for the file holds a BPM
    within 0.1 of the detected one, which is itself positive.  For a file
    that is already listed this means: a stored BPM more than 0.1 away from
    the detected one, a hand-made edit included, is overwritten by the
    detected one and the project saved; one within 0.1 is kept and nothing
    is saved. *)
Theorem addToLibrary_bpm (file : AudioFile) (l : LibraryComponent) (p : Project) :
  libraryProject l = Some p -> accepted file l ->
  let detected := Library.detectedBPM (estimateTempo file) in
  0 < detected /\
  (exists p' e, libraryProject (addToLibrary file l) = Some p' /\
     getProjectItemForFile file p' = Some e /\
     Qabs (Library.bpm (item e) - detected) <= 1 # 10) /\
  (forall e0, getProjectItemForFile file p = Some e0 ->
     (1 # 10 < Qabs (Library.bpm (item e0) - detected) ->
      exists p' e, libraryProject (addToLibrary file l) = Some p' /\
        getProjectItemForFile file p' = Some e /\
        Library.bpm (item e) = detected /\
        Library.itemName (item e) = Library.itemName (item e0) /\
        saves p' = S (saves p)) /\
     (Qabs (Library.bpm (item e0) - detected) <= 1 # 10 ->
      addToLibrary file l = l)).
Proof.
  intros Hlp (q & Hq & Hv & Hro & He & Hf & Hr) detected.
  rewrite Hlp in Hq. injection Hq as <-.
  split; [apply FileLoad.detectedBPM_positive|].
  unfold addToLibrary. rewrite Hlp, He, Hv, Hro, Hf, Hr. cbn [negb].
  fold detected.
  destruct (getProjectItemForFile file p) as [e0|] eqn:Hfind.
  - destruct (Qle_bool (Qabs (Library.bpm (item e0) - detected)) (1 # 10)) eqn:Hc;
      cbn [negb].
    + apply Qle_bool_iff in Hc. split.
      * exists p, e0. repeat split; assumption.
      * intros e1 E. injection E as <-. split; [|reflexivity].
        intros Hgt. exfalso. apply (Qlt_not_le _ _ Hgt Hc).
    + assert (Hnew : getProjectItemForFile file
                (mkProject (isValid p) (isReadOnly p)
                   (setBpmForFile (getFullPathName file) detected (projectItems p))
                   (S (saves p))) =
              Some (mkEntry (getSourceFile e0)
                      (Library.mkItem (Library.itemName (item e0)) detected))).
      { unfold getProjectItemForFile in *. cbn [projectItems].
        apply find_setBpmForFile. exact Hfind. }
      split.
      * eexists. eexists. split; [reflexivity|]. split; [exact Hnew|].
        cbn. apply Qabs_self.
      * intros e1 E. injection E as <-. split.
        -- intros _. eexists. eexists. split; [reflexivity|].
           split; [exact Hnew|]. repeat split.
        -- intros Hle. apply Qle_bool_iff in Hle. congruence.
  - split.
    + eexists. eexists. split; [reflexivity|].
      unfold getProjectItemForFile. cbn. rewrite String.eqb_refl.
      split; [reflexivity|]. cbn. apply Qabs_self.
    + intros e0 E. discriminate E.
Qed.

Lemma addToLibrary_bpm_witness :
  let f := mkAudioFile "a.wav" "a" true true true 128 in
  let p := mkProject true false [mkEntry "a.wav" (Library.mkItem "a" 64)] 3 in
  exists p' e, libraryProject (addToLibrary f (mkLibrary (Some p) 0)) = Some p' /\
    getProjectItemForFile f p' = Some e /\ Library.bpm (item e) = 128.
Proof.
  cbv zeta.
  set (f := mkAudioFile "a.wav" "a" true true true 128).
  set (p := mkProject true false [mkEntry "a.wav" (Library.mkItem "a" 64)] 3).
  assert (Ha : accepted f (mkLibrary (Some p) 0)).
  { exists p. repeat split. }
  destruct (addToLibrary_bpm f (mkLibrary (Some p) 0) p eq_refl Ha) as (_ & _ & H).
  destruct (H (mkEntry "a.wav" (Library.mkItem "a" 64)) eq_refl) as [H1 _].
  destruct H1 as (p' & e & H1 & H2 & H3 & _); [reflexivity|].
  exists p', e. repeat split; assumption.
Defined.

Lemma setBpmForFile_positive (path : string) (newBpm : Q) (l : list Entry) :
  0 < newBpm -> Forall positive l -> Forall positive (setBpmForFile path newBpm l).
Proof.
  intros Hb H. induction H as [|e l He Hl IH]; [constructor|]. cbn.
  destruct (String.eqb (getSourceFile e) path); constructor; assumption.
Qed.

Lemma removeAt_positive (n : nat) (l : list Entry) :
  Forall positive l -> Forall positive (removeAt n l).
Proof.
  intros H. revert n. induction H as [|e l He Hl IH]; intros [|n]; cbn;
    try constructor; auto.
Qed.

Lemma setItemAt_positive (n : nat) (i : Library.ProjectItem) (l : list Entry) :
  0 < Library.bpm i -> Forall positive l -> Forall positive (setItemAt n i l).
Proof.
  intros Hb H. revert n. induction H as [|e l He Hl IH]; intros [|n]; cbn;
    try constructor; auto.
Qed.

(** X18.  A library whose BPM values are all positive keeps them positive
    through every way the component has of changing it: adding a file,
    removing a row and editing a row's BPM, whatever the file, the row or the
    value typed. *)
Theorem library_bpm_stays_positive
    (file : AudioFile) (index : Z) (newBpm : Q) (l : LibraryComponent) :
  allPositive l ->
  allPositive (addToLibrary file l) /\
  allPositive (removeFromLibrary index l) /\
  allPositive (editBpm index newBpm l).
Proof.
  unfold allPositive. intros H.
  destruct (libraryProject l) as [p|] eqn:Hp.
  2:{ unfold addToLibrary, removeFromLibrary, editBpm. rewrite Hp, Hp. auto. }
  split; [|split].
  - unfold addToLibrary. rewrite Hp.
    guards p; try (rewrite Hp; exact H).
    pose proof (FileLoad.detectedBPM_positive (estimateTempo file)) as Hd.
    destruct (getProjectItemForFile file p).
    + destruct (negb _); cbn [libraryProject projectItems].
      * apply setBpmForFile_positive; assumption.
      * rewrite Hp. exact H.
    + cbn [libraryProject projectItems]. constructor; [exact Hd | exact H].
  - unfold removeFromLibrary. rewrite Hp.
    destruct (_ || _); cbn [libraryProject projectItems].
    + rewrite Hp. exact H.
    + apply removeAt_positive. exact H.
  - unfold editBpm. rewrite Hp.
    destruct (_ || _); [rewrite Hp; exact H|].
    destruct (nth_error _ _); [|rewrite Hp; exact H].
    destruct (Qle_bool newBpm 0) eqn:Hb; [rewrite Hp; exact H|].
    cbn [libraryProject projectItems].
    apply setItemAt_positive; [|exact H].
    unfold Library.okButton_onClick. rewrite Hb. cbn.
    apply Qnot_le_lt. intro L. apply Qle_bool_iff in L. congruence.
Qed.

Lemma library_bpm_stays_positive_witness :
  allPositive
    (editBpm 0 0 (addToLibrary (mkAudioFile "a.wav" "a" true true true 0)
                    (mkLibrary (Some (mkProject true false [] 0)) 0))).
Proof.
  assert (H0 : allPositive (mkLibrary (Some (mkProject true false [] 0)) 0))
    by constructor.
  destruct (library_bpm_stays_positive (mkAudioFile "a.wav" "a" true true true 0)
              0 0 _ H0) as (H1 & _).
  destruct (library_bpm_stays_positive (mkAudioFile "a.wav" "a" true true true 0)
              0 0 _ H1) as (_ & _ & H2).
  exact H2.
Defined.

Lemma removeAt_paths (n : nat) (l : list Entry) :
  map getSourceFile (removeAt n l) =
  firstn n (map getSourceFile l) ++ skipn (S n) (map getSourceFile l).
Proof.
  revert n. induction l as [|e l IH]; intros [|n]; cbn; try reflexivity.
  rewrite IH. reflexivity.
Qed.

Lemma removeAt_length (n : nat) (l : list Entry) :
  (n < List.length l)%nat -> S (List.length (removeAt n l)) = List.length l.
Proof.
  revert n. induction l as [|e l IH]; intros [|n] H; cbn in *; try lia.
  rewrite IH by lia. reflexivity.
Qed.

(** X19.  [removeFromLibrary] takes out exactly the row it is given: with no
    project or a row outside the table nothing changes; otherwise the table
    is one row shorter and the paths before and after the row keep their
    order.  Removing row 0 right after a new file was added undoes the
    addition but for the two saves. *)
Theorem removeFromLibrary_row (index : Z) (l : LibraryComponent) :
  ((index < 0)%Z \/ (getNumRows l <= index)%Z -> removeFromLibrary index l = l) /\
  ((0 <= index < getNumRows l)%Z ->
     getNumRows (removeFromLibrary index l) = (getNumRows l - 1)%Z /\
     paths (removeFromLibrary index l) =
       firstn (Z.to_nat index) (paths l) ++ skipn (S (Z.to_nat index)) (paths l)) /\
  (forall file p, libraryProject l = Some p -> accepted file l ->
     ~ In (getFullPathName file) (paths l) ->
     libraryProject (removeFromLibrary 0 (addToLibrary file l)) =
       Some (mkProject (isValid p) (isReadOnly p) (projectItems p) (S (S (saves p))))).
Proof.
  split; [|split].
  - intros H. unfold removeFromLibrary, getNumRows in *.
    destruct (libraryProject l) as [p|]; [|reflexivity].
    destruct (Z.ltb_spec index 0); [reflexivity|].
    destruct (Z.leb_spec (Z.of_nat (List.length (projectItems p))) index);
      [reflexivity|lia].
  - intros H. unfold removeFromLibrary, getNumRows, paths in *.
    destruct (libraryProject l) as [p|]; [|lia].
    destruct (Z.ltb_spec index 0); [lia|].
    destruct (Z.leb_spec (Z.of_nat (List.length (projectItems p))) index); [lia|].
    cbn [orb libraryProject projectItems]. split.
    + pose proof (removeAt_length (Z.to_nat index) (projectItems p) ltac:(lia)). lia.
    + apply removeAt_paths.
  - intros file p Hp (q & Hq & Hv & Hro & He & Hf & Hr) Hn.
    rewrite Hp in Hq. injection Hq as <-.
    unfold addToLibrary. rewrite Hp, He, Hv, Hro, Hf, Hr. cbn [negb].
    destruct (getProjectItemForFile file p) as [e|] eqn:Hfind.
    + exfalso. apply Hn. apply find_path_some in Hfind. destruct Hfind as [Hin Heq].
      unfold paths. rewrite Hp, <- Heq. apply in_map. exact Hin.
    + reflexivity.
Qed.

Lemma removeFromLibrary_row_witness :
  let p := mkProject true false [mkEntry "b.wav" (Library.mkItem "b" 90)] 1 in
  libraryProject
    (removeFromLibrary 0
       (addToLibrary (mkAudioFile "a.wav" "a" true true true 128) (mkLibrary (Some p) 0)))
  = Some (mkProject true false [mkEntry "b.wav" (Library.mkItem "b" 90)] 3).
Proof.
  cbv zeta.
  set (p := mkProject true false [mkEntry "b.wav" (Library.mkItem "b" 90)] 1).
  destruct (removeFromLibrary_row 0 (mkLibrary (Some p) 0)) as (_ & _ & H).
  apply (H (mkAudioFile "a.wav" "a" true true true 128) p eq_refl).
  - exists p. repeat split.
  - cbn. intros [E|[]]. discriminate E.
Defined.

Lemma setItemAt_paths (n : nat) (i : Library.ProjectItem) (l : list Entry) :
  map getSourceFile (setItemAt n i l) = map getSourceFile l.
Proof.
  revert n. induction l as [|e l IH]; intros [|n]; cbn; try reflexivity.
  rewrite IH. reflexivity.
Qed.

Lemma setItemAt_same (n : nat) (i : Library.ProjectItem) (l : list Entry) :
  (n < List.length l)%nat ->
  nth_error (map (fun e => Library.bpm (item e)) (setItemAt n i l)) n =
    Some (Library.bpm i).
Proof.
  revert n. induction l as [|e l IH]; intros [|n] H; cbn in *; try lia.
  - reflexivity.
  - apply IH. lia.
Qed.

Lemma setItemAt_other (n j : nat) (i : Library.ProjectItem) (l : list Entry) :
  j <> n ->
  nth_error (map (fun e => Library.bpm (item e)) (setItemAt n i l)) j =
  nth_error (map (fun e => Library.bpm (item e)) l) j.
Proof.
  revert n j. induction l as [|e l IH]; intros [|n] [|j] H; cbn; try reflexivity.
  - contradiction.
  - apply IH. congruence.
Qed.

(** X20.  The BPM editor changes one number or nothing: with no project, a
    row outside the table or a value that is not positive, the library is
    left as it was; otherwise the row's BPM becomes the value typed, every
    other row keeps its BPM, no path changes and the project is saved
    once. *)
Theorem editBpm_one_row (rowIndex : Z) (newBpm : Q) (l : LibraryComponent) :
  ((rowIndex < 0)%Z \/ (getNumRows l <= rowIndex)%Z \/ newBpm <= 0 ->
   editBpm rowIndex newBpm l = l) /\
  ((0 <= rowIndex < getNumRows l)%Z -> 0 < newBpm ->
   paths (editBpm rowIndex newBpm l) = paths l /\
   nth_error (bpms (editBpm rowIndex newBpm l)) (Z.to_nat rowIndex) = Some newBpm /\
   (forall j, j <> Z.to_nat rowIndex ->
      nth_error (bpms (editBpm rowIndex newBpm l)) j = nth_error (bpms l) j) /\
   (forall p p', libraryProject l = Some p ->
      libraryProject (editBpm rowIndex newBpm l) = Some p' ->
      saves p' = S (saves p))).
Proof.
  split.
  - intros H. unfold editBpm, getNumRows in *.
    destruct (libraryProject l) as [p|]; [|reflexivity].
    destruct (Z.ltb_spec rowIndex 0); [reflexivity|].
    destruct (Z.leb_spec (Z.of_nat (List.length (projectItems p))) rowIndex);
      [reflexivity|]. cbn [orb].
    destruct (nth_error _ _); [|reflexivity].
    destruct H as [H|[H|H]]; try lia.
    apply Qle_bool_iff in H. rewrite H. reflexivity.
  - intros Hr Hb. unfold editBpm, getNumRows, paths, bpms in *.
    destruct (libraryProject l) as [p|] eqn:Hp; [|lia].
    destruct (Z.ltb_spec rowIndex 0); [lia|].
    destruct (Z.leb_spec (Z.of_nat (List.length (projectItems p))) rowIndex); [lia|].
    cbn [orb].
    assert (Hlen : (Z.to_nat rowIndex < List.length (projectItems p))%nat) by lia.
    destruct (nth_error (projectItems p) (Z.to_nat rowIndex)) as [e|] eqn:Hn.
    2:{ apply nth_error_None in Hn. lia. }
    assert (Hq : Qle_bool newBpm 0 = false).
    { destruct (Qle_bool newBpm 0) eqn:E; [|reflexivity].
      apply Qle_bool_iff in E. exfalso. apply (Qlt_not_le _ _ Hb E). }
    rewrite Hq. unfold Library.okButton_onClick. rewrite Hq.
    cbn [libraryProject projectItems Library.itemRef Library.projectSaves].
    split; [apply setItemAt_paths|].
    split; [rewrite setItemAt_same by exact Hlen; reflexivity|].
    split; [intros j Hj; apply setItemAt_other; exact Hj|].
    intros q q' E1 E2. injection E1 as <-. injection E2 as <-. reflexivity.
Qed.

Lemma editBpm_one_row_witness :
  let p := mkProject true false [mkEntry "a.wav" (Library.mkItem "a" 128);
                                 mkEntry "b.wav" (Library.mkItem "b" 90)] 0 in
  bpms (editBpm 0 64 (mkLibrary (Some p) 0)) = [64; 90] /\
  editBpm 1 0 (mkLibrary (Some p) 0) = mkLibrary (Some p) 0.
Proof.
  cbv zeta. split; [reflexivity|].
  apply (proj1 (editBpm_one_row 1 0 _)). right. right. discriminate.
Defined.

(** X21.  A double click hands a file on to be loaded only when the row is
    a row of the table and the row's file is there on disk, and the file is
    then that row's; a row outside the table, a missing project or a missing
    file select nothing. *)
Theorem cellDoubleClicked_row
    (exists_ : string -> bool) (rowNumber : Z) (l : LibraryComponent) (path : string) :
  cellDoubleClicked exists_ rowNumber l = Some path <->
  ((0 <= rowNumber < getNumRows l)%Z /\
   nth_error (paths l) (Z.to_nat rowNumber) = Some path /\
   exists_ path = true).
Proof.
  unfold cellDoubleClicked, getNumRows, paths.
  destruct (libraryProject l) as [p|].
  2:{ split; [discriminate|]. intros [H _]. lia. }
  destruct (Z.leb_spec (Z.of_nat (List.length (projectItems p))) rowNumber).
  { split; [discriminate|]. intros [H' _]. lia. }
  destruct (Z.ltb_spec rowNumber 0).
  { split; [discriminate|]. intros [H' _]. lia. }
  rewrite nth_error_map.
  destruct (nth_error (projectItems p) (Z.to_nat rowNumber)) as [e|]; cbn.
  - destruct (exists_ (getSourceFile e)) eqn:E.
    + split.
      * intros H1. injection H1 as <-. repeat split; (lia || assumption).
      * intros (_ & H1 & _). exact H1.
    + split; [discriminate|]. intros (_ & H1 & H2). injection H1 as <-. congruence.
  - split; [discriminate|]. intros (_ & H1 & _). discriminate.
Qed.
End LibraryProps.
